(** * MemoryBridge: the OpenClaw integration script

    A shallow embedding of [scripts/openclaw-install.js]: the installer
    ([main]) and the wrapper module it generates ([store], [query],
    [getSessionContext], [autoStore], [calculateImportance]).  The engine
    of the [memory-bridge] package, which the wrapper calls and the
    script does not contain, is a parameter of the wrapper; where a
    property is about what the engine persists, the engine is the one
    module [Spec] models from the specification.

    Modelling conventions:
    - A JavaScript string is a [string]: a sequence of code units, each
      an [ascii], so the model covers strings whose code units are below
      256.  [String.length] is the [.length] property.
    - A JavaScript number that the script only uses as a small integer is
      a [Z].
    - An options object is a finite map from property names to values
      ([gmap string value]); object spread is map union. *)

From Stdlib Require Import ZArith Ascii String Bool Lia.
From stdpp Require Import base option gmap strings list fin_maps.

Local Open Scope string_scope.
Local Open Scope Z_scope.

(** ** JavaScript string primitives used by the script *)

Module JS.

(** [String.prototype.length], as a number. *)
Definition len (s : string) : Z := Z.of_nat (String.length s).

(** [s.slice(start, stop)] for the non-negative in-range arguments the
    script uses ([slice(0, 5000)]): the code units from [start] up to,
    not including, [stop]. *)
Definition slice (start stop : nat) (s : string) : string :=
  String.substring start (stop - start) s.

(** White space and line terminators removed by [trim], restricted to
    code units below 256: TAB, LF, VT, FF, CR, SP and NBSP. *)
Definition isWhiteSpace (c : ascii) : bool :=
  match c with
  | "009" | "010" | "011" | "012" | "013" | " " | "160" => true
  | _ => false
  end%char.

Fixpoint trimStart (s : string) : string :=
  match s with
  | "" => ""
  | String c s' => if isWhiteSpace c then trimStart s' else s
  end.

Fixpoint trimEnd (s : string) : string :=
  match s with
  | "" => ""
  | String c s' =>
      match trimEnd s' with
      | "" => if isWhiteSpace c then "" else String c ""
      | t => String c t
      end
  end.

(** [s.trim()]: white space removed from both ends. *)
Definition trim (s : string) : string := trimEnd (trimStart s).

(** Lower-case mapping of one code unit below 256: A-Z and the
    Latin-1 capitals U+00C0..U+00DE (without the multiplication sign
    U+00D7) move up by 32. *)
Definition lowerChar (c : ascii) : ascii :=
  let n := N_of_ascii c in
  if (((65 <=? n) && (n <=? 90)) ||
      ((192 <=? n) && (n <=? 222) && negb (n =? 215)))%N
  then ascii_of_N (n + 32) else c.

(** [s.toLowerCase()] on code units below 256.  Outside that range the
    real function can change the length of a string; nothing below uses
    that this one does not. *)
Fixpoint toLowerCase (s : string) : string :=
  match s with
  | "" => ""
  | String c s' => String (lowerChar c) (toLowerCase s')
  end.

(** [s.includes(w)]: [w] occurs in [s] at some position. *)
Fixpoint includes (s w : string) : bool :=
  String.prefix w s ||
  match s with
  | "" => false
  | String _ s' => includes s' w
  end.

(** [s.repeat(n)]. *)
Fixpoint repeat (s : string) (n : nat) : string :=
  match n with
  | O => ""
  | S n' => s ++ repeat s n'
  end.

(** The last code unit of a string. *)
Definition last (s : string) : option ascii :=
  String.get (String.length s - 1) s.

(** [w] is a substring of [s]. *)
Definition Contains (s w : string) : Prop :=
  exists pre post : string, s = pre ++ w ++ post.

End JS.

(** ** Effects: state passing with exceptions

    An effectful JavaScript function is a state transformer that either
    returns a value or throws; [await p; k] and [p; k] are both bind, so
    an exception (a rejected promise) skips the rest of the body. *)

Inductive outcome (A : Type) : Type :=
| Returned (a : A)
| Threw (message : string).
Arguments Returned {A} a.
Arguments Threw {A} message.

Definition Eff (S A : Type) : Type := S -> outcome A * S.

Definition eff_ret {S A : Type} (a : A) : Eff S A :=
  fun s => (Returned a, s).

Definition eff_bind {S A B : Type} (k : A -> Eff S B) (m : Eff S A) : Eff S B :=
  fun s =>
    match m s with
    | (Returned a, s') => k a s'
    | (Threw e, s') => (Threw e, s')
    end.

Definition throw {S A : Type} (message : string) : Eff S A :=
  fun s => (Threw message, s).

#[global] Instance eff_mret {S : Type} : MRet (Eff S) := @eff_ret S.
#[global] Instance eff_mbind {S : Type} : MBind (Eff S) := @eff_bind S.

(** ** The generated wrapper module ([openclaw-wrapper.js]) *)

Module Wrapper.
Import JS.

(** Property values of the options objects the wrapper builds. *)
Inductive value : Type :=
| VStr (s : string)
| VNum (n : Z).

(** [{...base, ...extra}]: the properties of [extra] override those of
    [base]. *)
Definition spread (base extra : gmap string value) : gmap string value :=
  extra ∪ base.

Definition highValueWords : list string :=
  ["decide"; "build"; "create"; "launch"; "important"; "critical";
   "goal"; "prefer"].

(** [calculateImportance(userMsg, agentResp)]. *)
Definition calculateImportance (userMsg agentResp : string) : Z :=
  let score := 5 in
  (* Length indicators *)
  let score := if 100 <? len userMsg then score + 1 else score in
  let score := if 300 <? len userMsg then score + 1 else score in
  (* Keyword indicators *)
  let matches :=
    Z.of_nat (List.length
      (List.filter (fun w => includes (toLowerCase userMsg) w)
                   highValueWords)) in
  let score := score + Z.min 3 matches in
  (* Security/critical *)
  let score :=
    if includes (toLowerCase userMsg) "security" ||
       includes (toLowerCase userMsg) "password" ||
       includes (toLowerCase userMsg) "api key"
    then score + 3 else score in
  Z.min 10 score.

(** The options [store] hands to the engine. *)
Definition store_options (options : gmap string value) : gmap string value :=
  spread {[ "agentId" := VStr "OpenClaw"; "source" := VStr "openclaw-chat" ]}
         options.

(** The options [query] hands to the engine. *)
Definition query_options (options : gmap string value) : gmap string value :=
  spread {[ "agentId" := VStr "OpenClaw"; "limit" := VNum 5; "days" := VNum 30 ]}
         options.

(** What [store] does to the content before handing it over. *)
Definition sanitize (content : string) : string :=
  trim (slice 0 5000 content).

Section Engine.
(** [const memory = new MemoryBridge(config)]: the engine comes from
    the [memory-bridge] package, which the script requires and does
    not contain.  Its two methods are parameters: any state, any
    identifiers and results, and either method may throw. *)
Context {EngineState MemoryId Results : Type}.
Variable memory_store :
  string -> gmap string value -> Eff EngineState MemoryId.
Variable memory_query :
  string -> gmap string value -> Eff EngineState Results.

(** [async function store(content, options = {})]; an omitted
    [options] is the empty map. *)
Definition store (content : string) (options : gmap string value)
  : Eff EngineState MemoryId :=
  let sanitized := trim (slice 0 5000 content) in
  memory_store sanitized
    (spread {[ "agentId" := VStr "OpenClaw";
               "source" := VStr "openclaw-chat" ]} options).

(** [async function query(queryString, options = {})]. *)
Definition query (queryString : string) (options : gmap string value)
  : Eff EngineState Results :=
  memory_query queryString
    (spread {[ "agentId" := VStr "OpenClaw"; "limit" := VNum 5;
               "days" := VNum 30 ]} options).

(** [async function autoStore(userMessage, agentResponse)]. *)
Definition autoStore (userMessage agentResponse : string)
  : Eff EngineState unit :=
  let importance := calculateImportance userMessage agentResponse in
  if 6 <=? importance then
    _ ← store userMessage
          {[ "type" := VStr (if 8 <=? importance
                             then "insight" else "conversation");
             "importance" := VNum importance ]};
    (* Extract and store decisions *)
    if includes userMessage "decide" || includes userMessage "build" ||
       includes userMessage "create"
    then
      _ ← store ("Decision: " ++ userMessage)
            {[ "type" := VStr "decision"; "importance" := VNum 9 ]};
      mret tt
    else mret tt
  else mret tt.

End Engine.

(** *** A recording engine

    A stand-in for [memory.store] that persists exactly what it is
    handed, in order, and returns the position of the new record. *)
Record Memory : Type := mkMemory {
  content : string;
  options : gmap string value
}.

Definition record_store (c : string) (o : gmap string value)
  : Eff (list Memory) nat :=
  fun log => (Returned (List.length log), (log ++ [mkMemory c o])%list).

(** An engine that refuses every write. *)
Definition refuse_store (c : string) (o : gmap string value)
  : Eff (list Memory) nat :=
  throw "BackendUnavailableError".

End Wrapper.

(** ** The installer ([main]) *)

Module Installer.

(** A path is the list of its segments below the root, so
    [path.join(p, name)] appends one segment. *)
Definition path_join (p : list string) (name : string) : list string :=
  (p ++ [name])%list.

(** The default configuration object written to [config.json]. *)
Record Config : Type := mkConfig {
  storage : string;
  path : list string;
  agentId : string;
  version : string
}.

(** What the installer writes into a file. *)
Inductive data : Type :=
| ConfigJson (config : Config)   (* JSON.stringify(config, null, 2) *)
| WrapperCode                    (* the wrapper module's text *)
| ExampleCode.                   (* the usage example's text *)

Inductive node : Type :=
| Dir
| File (d : data).

(** The lines the installer prints. *)
Inductive line : Type :=
| Banner
| AlreadyInstalled
| Location (p : list string)
| Installed
| ConfigAt (p : list string)
| DatabaseAt (p : list string)
| WrapperAt (p : list string)
| NextSteps
| Step (n : nat).

(** The part of the world [main] touches: the file tree and the
    console. *)
Record World : Type := mkWorld {
  fs : gmap (list string) node;
  console : list line
}.

(** The root always exists and is a directory. *)
Definition lookup_node (tree : gmap (list string) node) (p : list string)
  : option node :=
  match p with
  | [] => Some Dir
  | _ => tree !! p
  end.

Definition console_log (l : line) : Eff World unit :=
  fun w => (Returned tt, mkWorld (fs w) (console w ++ [l])%list).

(** [fs.existsSync(p)]. *)
Definition existsSync (p : list string) : Eff World bool :=
  fun w =>
    (Returned (match lookup_node (fs w) p with Some _ => true | None => false end),
     w).

(** The non-empty prefixes of a path, shortest first: its ancestors
    and the path itself. *)
Definition prefixes (p : list string) : list (list string) :=
  List.map (fun n => take n p) (seq 1 (List.length p)).

Definition is_file (tree : gmap (list string) node) (p : list string) : bool :=
  match lookup_node tree p with
  | Some (File _) => true
  | _ => false
  end.

(** [fs.mkdirSync(p, { recursive: true })]: creates the missing
    directories along [p]; throws when a file is in the way. *)
Definition mkdirSync (p : list string) : Eff World unit :=
  fun w =>
    if existsb (is_file (fs w)) (prefixes p)
    then (Threw "ENOTDIR", w)
    else
      (Returned tt,
       mkWorld
         (fold_left
            (fun tree q =>
               match tree !! q with
               | Some _ => tree
               | None => <[q := Dir]> tree
               end)
            (prefixes p) (fs w))
         (console w)).

(** [fs.writeFileSync(p, d)]: creates or replaces the file [p]; the
    parent must be a directory and [p] must not be one. *)
Definition writeFileSync (p : list string) (d : data) : Eff World unit :=
  fun w =>
    match lookup_node (fs w) (removelast p) with
    | Some Dir =>
        match lookup_node (fs w) p with
        | Some Dir => (Threw "EISDIR", w)
        | _ => (Returned tt, mkWorld (<[p := File d]> (fs w)) (console w))
        end
    | Some (File _) => (Threw "ENOTDIR", w)
    | None => (Threw "ENOENT", w)
    end.

Section Main.
(** [process.env.OPENCLAW_WORKSPACE || '/Users/ares/.openclaw/workspace'],
    as a path. *)
Variable OPENCLAW_DIR : list string.

Definition MEMORY_DIR : list string :=
  path_join OPENCLAW_DIR ".memory-bridge".

Definition config : Config :=
  {| storage := "sqlite";
     path := path_join MEMORY_DIR "memory.db";
     agentId := "OpenClaw";
     version := "1.0.0" |}.

(** [function main()]. *)
Definition main : Eff World unit :=
  console_log Banner;;
  (* Check if already installed *)
  installed ← existsSync MEMORY_DIR;
  if installed : bool then
    console_log AlreadyInstalled;;
    console_log (Location MEMORY_DIR);;
    mret tt
  else
    (* Create directory *)
    mkdirSync MEMORY_DIR;;
    (* Create default config *)
    writeFileSync (path_join MEMORY_DIR "config.json") (ConfigJson config);;
    (* Create wrapper module *)
    writeFileSync (path_join MEMORY_DIR "openclaw-wrapper.js") WrapperCode;;
    (* Create usage example *)
    writeFileSync (path_join MEMORY_DIR "example.js") ExampleCode;;
    console_log Installed;;
    console_log (ConfigAt (path_join MEMORY_DIR "config.json"));;
    console_log (DatabaseAt (path config));;
    console_log (WrapperAt (path_join MEMORY_DIR "openclaw-wrapper.js"));;
    console_log NextSteps;;
    console_log (Step 1);;
    console_log (Step 2);;
    console_log (Step 3).

End Main.

(** The workspace used when the environment names none. *)
Definition default_workspace : list string :=
  ["Users"; "ares"; ".openclaw"; "workspace"].

End Installer.

(** ** The engine of the [memory-bridge] package, from the specification *)

Module Spec.
Import JS.

(** Modelled from the spec: the fixed list of security and credential
    signal words of the engine's Importance Scorer (section 4.2:
    "security-related terms, password, key-material terms").  The engine
    is the [memory-bridge] package, which the script requires and does
    not contain; the list is read as the three words of those three
    kinds that the script itself looks for. *)
Definition sensitiveWords : list string :=
  ["security"; "password"; "api key"].

(** Modelled from the spec: the clamp of the engine's Importance Scorer
    (section 4.2: "clamp to [1,10]"; section 8: "the persisted importance
    equals max(1, min(10, v))"). *)
Definition clampImportance (v : Z) : Z := Z.max 1 (Z.min 10 v).

(** Modelled from the spec: the importance the engine's Importance
    Scorer computes when the caller supplies none (section 4.2): base 5,
    +1 for content longer than 200 characters, +2 for [insight], +1 for
    [error], +2 for [goal], +3 when the lower-cased content contains a
    word of the fixed list, the sum clamped to [1,10].  The specification
    leaves further length tiers open; the model has the one tier it
    names, so the length contribution is capped at 1. *)
Definition computeImportance (content contentType : string) : Z :=
  let score := 5 in
  let score := if 200 <? len content then score + 1 else score in
  let score := if String.eqb contentType "insight" then score + 2 else score in
  let score := if String.eqb contentType "error" then score + 1 else score in
  let score := if String.eqb contentType "goal" then score + 2 else score in
  let score :=
    if existsb (fun w => includes (toLowerCase content) w) sensitiveWords
    then score + 3 else score in
  clampImportance score.

(** Modelled from the spec: the contract of the engine's Importance
    Scorer (section 4.2): an explicit importance is clamped and
    returned, otherwise the importance is computed. *)
Definition scoreImportance (content contentType : string)
    (explicit : option Z) : Z :=
  match explicit with
  | Some v => clampImportance v
  | None => computeImportance content contentType
  end.

(** Modelled from the spec: the persisted entity of the engine (section
    3), without its identifier, keywords and creation time, which no
    property here reads. *)
Record Memory : Type := persisted {
  content : string;
  contentType : string;
  importance : Z;
  source : option string;
  agentId : string
}.

(** Modelled from the spec: how the engine reads an optional text
    option; a value of the wrong kind is a [ValidationError] (section 7:
    option values that cannot be coerced). *)
Definition textOption (options : gmap string Wrapper.value) (k : string)
  : outcome (option string) :=
  match options !! k with
  | None => Returned None
  | Some (Wrapper.VStr t) => Returned (Some t)
  | Some (Wrapper.VNum _) => Threw "ValidationError"
  end.

(** Modelled from the spec: how the engine reads an optional number
    option. *)
Definition numberOption (options : gmap string Wrapper.value) (k : string)
  : outcome (option Z) :=
  match options !! k with
  | None => Returned None
  | Some (Wrapper.VNum n) => Returned (Some n)
  | Some (Wrapper.VStr _) => Threw "ValidationError"
  end.

(** Modelled from the spec: [memory.store] of the engine built by
    [new MemoryBridge(config)] (sections 3 and 4.4): the content is
    truncated to 5000 characters and trimmed, empty content is rejected,
    the content type defaults to [conversation], the importance is
    resolved by the scorer, the agent defaults to the configured default
    identity, and one Memory is written; the result is its identifier
    (here its position).  The content type is read from the option
    [type], the name the scenarios of section 8 and the script use. *)
Definition store (config : Installer.Config)
    (content : string) (options : gmap string Wrapper.value)
  : Eff (list Memory) nat :=
  fun db =>
    let normalized := trim (slice 0 5000 content) in
    if String.eqb normalized "" then (Threw "EmptyContentError", db)
    else
      match textOption options "type", numberOption options "importance",
            textOption options "source", textOption options "agentId" with
      | Returned ty, Returned explicit, Returned src, Returned agent =>
          (Returned (List.length db),
           (db ++
            [{| content := normalized;
                contentType := default "conversation" ty;
                importance :=
                  scoreImportance normalized (default "conversation" ty)
                                  explicit;
                source := src;
                agentId := default (Installer.agentId config) agent |}])%list)
      | _, _, _, _ => (Threw "ValidationError", db)
      end.

End Spec.

(** ** The wrapper's [getSessionContext] *)

Module Session.
Import JS Wrapper.

(** The errors of a settled promise: one for a rejection. *)
Definition rejections {A : Type} (r : outcome A) : list string :=
  match r with
  | Returned _ => []
  | Threw e => [e]
  end.

(** [Promise.all([a, b, c])] over three calls written in the array
    literal: the calls are made in array order before anything is
    awaited, so each of them happens whether or not an earlier one
    fails; the whole resolves to the three results when all resolve and
    rejects when one rejects, with the rejection that settles first.
    Which one settles first is the engine's timing, not the script's:
    [settlesFirst] picks it among the rejections, listed in array order.
    Each engine call is one atomic step on the engine state. *)
Definition promise_all3 {S A B C : Type}
    (settlesFirst : list string -> string)
    (a : Eff S A) (b : Eff S B) (c : Eff S C) : Eff S (A * B * C) :=
  fun s =>
    let (ra, s1) := a s in
    let (rb, s2) := b s1 in
    let (rc, s3) := c s2 in
    match ra, rb, rc with
    | Returned x, Returned y, Returned z => (Returned (x, y, z), s3)
    | _, _, _ =>
        (Threw (settlesFirst
                  (rejections ra ++ rejections rb ++ rejections rc)%list),
         s3)
    end.

(** The object [getSessionContext] returns; the results of a query are
    an array of items. *)
Record SessionContext (Item : Type) : Type := mkSessionContext {
  recentMemories : list Item;
  preferences : list Item;
  goals : list Item;
  hasContext : bool
}.
Arguments mkSessionContext {Item} _ _ _ _.
Arguments recentMemories {Item} _.
Arguments preferences {Item} _.
Arguments goals {Item} _.
Arguments hasContext {Item} _.

Section Engine.
Context {EngineState Item : Type}.
Variable settlesFirst : list string -> string.
Variable memory_query :
  string -> gmap string value -> Eff EngineState (list Item).

(** [async function getSessionContext()]. *)
Definition getSessionContext : Eff EngineState (SessionContext Item) :=
  '(recent, preferences, goals) ←
    promise_all3 settlesFirst
      (query memory_query "recent work" {[ "limit" := VNum 3; "days" := VNum 7 ]})
      (query memory_query "preference" {[ "limit" := VNum 5 ]})
      (query memory_query "goal" {[ "minImportance" := VNum 8; "limit" := VNum 3 ]});
  mret {| recentMemories := recent;
          preferences := preferences;
          goals := goals;
          hasContext := (0 <? Z.of_nat (List.length recent)) ||
                        (0 <? Z.of_nat (List.length preferences)) |}.

End Engine.

(** A recording engine for queries: it keeps every (query string,
    options) pair it is handed, in order, and answers from a fixed
    table. *)
Definition record_query {Item : Type} (answer : string -> list Item)
    (q : string) (o : gmap string value)
  : Eff (list (string * gmap string value)) (list Item) :=
  fun log => (Returned (answer q), (log ++ [(q, o)])%list).

(** A recording engine that fails the queries for which [fails] holds. *)
Definition record_query_failing {Item : Type} (fails : string -> bool)
    (q : string) (o : gmap string value)
  : Eff (list (string * gmap string value)) (list Item) :=
  fun log =>
    (if fails q then Threw "BackendUnavailableError" else Returned [],
     (log ++ [(q, o)])%list).

End Session.

(** ** File trees *)

Module Script.
Import Installer.

(** A file tree is well formed when the parent of every entry is a
    directory. *)
Definition well_formed (tree : gmap (list string) node) : Prop :=
  forall p n, tree !! p = Some n ->
              lookup_node tree (removelast p) = Some Dir.

(** One step of [mkdirSync]'s loop: the directory [q] is created
    unless something is there already. *)
Definition add_dir (tree : gmap (list string) node) (q : list string)
  : gmap (list string) node :=
  match tree !! q with
  | Some _ => tree
  | None => <[q := Dir]> tree
  end.

(** The tree [mkdirSync(p, { recursive: true })] leaves when it
    succeeds. *)
Definition make_dirs (p : list string) (tree : gmap (list string) node)
  : gmap (list string) node :=
  fold_left add_dir (prefixes p) tree.

End Script.

(** ** Test engines *)

Module Engines.
Import Wrapper.

(** An engine with room for [room] records: it persists what it is
    handed while there is room and rejects every write after that. *)
Definition quota_store (room : nat) (c : string) (o : gmap string value)
  : Eff (list Memory) nat :=
  fun log =>
    if (List.length log <? room)%nat
    then (Returned (List.length log), (log ++ [mkMemory c o])%list)
    else (Threw "BackendUnavailableError", log).

End Engines.

(** * Properties *)

(** ** Strings *)

Module JSFacts.
Import JS.

Lemma app_cons (c : ascii) (s t : string) :
  String c s ++ t = String c (s ++ t).
Proof. reflexivity. Qed.

Lemma app_empty_l (t : string) : "" ++ t = t.
Proof. reflexivity. Qed.

Lemma app_empty_r (s : string) : s ++ "" = s.
Proof. induction s as [|c s IH]; [reflexivity|]. rewrite app_cons. f_equal. exact IH. Qed.

Lemma app_assoc (s t u : string) : (s ++ t) ++ u = s ++ t ++ u.
Proof.
  induction s as [|c s IH]; [reflexivity|].
  rewrite !app_cons. f_equal. exact IH.
Qed.

Lemma length_app (s t : string) :
  String.length (s ++ t) = (String.length s + String.length t)%nat.
Proof.
  induction s as [|c s IH]; [reflexivity|].
  rewrite app_cons. simpl. f_equal. exact IH.
Qed.

(** [prefix] decides "starts with". *)
Lemma prefix_spec (w s : string) :
  String.prefix w s = true <-> exists post, s = w ++ post.
Proof.
  revert s. induction w as [|c w IH]; intros s.
  - split; [intros _; exists s; reflexivity|]. intros _. destruct s; reflexivity.
  - destruct s as [|d s]; simpl.
    + split; [discriminate|]. intros [post H]. rewrite app_cons in H. discriminate.
    + destruct (ascii_dec c d) as [->|Hne].
      * rewrite IH. split; intros [post H]; exists post.
        -- rewrite app_cons. f_equal. exact H.
        -- rewrite app_cons in H. injection H as H. exact H.
      * split; [discriminate|]. intros [post H].
        rewrite app_cons in H. injection H as H _. congruence.
Qed.

(** [includes] decides "is a substring of". *)
Lemma includes_spec (s w : string) :
  includes s w = true <-> Contains s w.
Proof.
  unfold Contains. induction s as [|c s IH].
  - cbn [includes]. rewrite orb_false_r, prefix_spec. split.
    + intros [post H]. exists "", post. exact H.
    + intros [[|d pre] [post H]].
      * exists post. exact H.
      * rewrite app_cons in H. discriminate.
  - cbn [includes]. rewrite orb_true_iff, prefix_spec, IH. split.
    + intros [[post H]|(pre & post & H)].
      * exists "", post. exact H.
      * exists (String c pre), post. rewrite app_cons. f_equal. exact H.
    + intros [[|d pre] [post H]].
      * left. exists post. exact H.
      * right. rewrite app_cons in H. injection H as _ H. exists pre, post. exact H.
Qed.

Lemma includes_false (s w : string) :
  includes s w = false <-> ~ Contains s w.
Proof. rewrite <- includes_spec. destruct (includes s w); intuition congruence. Qed.

Lemma toLowerCase_app (s t : string) :
  toLowerCase (s ++ t) = toLowerCase s ++ toLowerCase t.
Proof.
  induction s as [|c s IH]; [reflexivity|].
  rewrite app_cons. simpl. rewrite app_cons. f_equal. exact IH.
Qed.


(** A word that is already lower case is found in the lower-cased
    string whenever it is found in the string. *)
Lemma Contains_toLowerCase (s w : string) :
  toLowerCase w = w -> Contains s w -> Contains (toLowerCase s) w.
Proof.
  intros Hw (pre & post & ->). exists (toLowerCase pre), (toLowerCase post).
  rewrite !toLowerCase_app, Hw. reflexivity.
Qed.

(** *** [slice] and [trim] *)

Lemma length_substring_0 (n : nat) (s : string) :
  String.length (String.substring 0 n s) = Nat.min n (String.length s).
Proof.
  revert s. induction n as [|n IH]; intros [|c s]; simpl; try reflexivity.
  f_equal. apply IH.
Qed.

Lemma length_slice_0 (n : nat) (s : string) :
  String.length (slice 0 n s) = Nat.min n (String.length s).
Proof. unfold slice. rewrite Nat.sub_0_r. apply length_substring_0. Qed.

Lemma slice_0_short (n : nat) (s : string) :
  (String.length s <= n)%nat -> slice 0 n s = s.
Proof.
  unfold slice. rewrite Nat.sub_0_r. revert s.
  induction n as [|n IH]; intros [|c s]; simpl; intros H; try reflexivity; try lia.
  f_equal. apply IH. lia.
Qed.

Lemma get_slice_0 (n i : nat) (s : string) :
  (i < n)%nat -> String.get i (slice 0 n s) = String.get i s.
Proof.
  intros H. unfold slice. rewrite Nat.sub_0_r, substring_correct1 by exact H.
  f_equal. lia.
Qed.

Lemma length_trimStart (s : string) :
  (String.length (trimStart s) <= String.length s)%nat.
Proof.
  induction s as [|c s IH]; simpl; [lia|].
  destruct (isWhiteSpace c); simpl; lia.
Qed.

Lemma length_trimEnd (s : string) :
  (String.length (trimEnd s) <= String.length s)%nat.
Proof.
  induction s as [|c s IH]; simpl; [lia|].
  destruct (trimEnd s); [destruct (isWhiteSpace c)|]; simpl in *; lia.
Qed.

Lemma length_trim (s : string) :
  (String.length (trim s) <= String.length s)%nat.
Proof.
  unfold trim. pose proof (length_trimEnd (trimStart s)).
  pose proof (length_trimStart s). lia.
Qed.

Lemma last_cons (c d : ascii) (s : string) :
  last (String c (String d s)) = last (String d s).
Proof. unfold last. simpl. rewrite Nat.sub_0_r. reflexivity. Qed.

Lemma trimStart_fixed (s : string) (c : ascii) :
  String.get 0 s = Some c -> isWhiteSpace c = false -> trimStart s = s.
Proof.
  destruct s as [|d s]; simpl; [discriminate|].
  intros [= ->] ->. reflexivity.
Qed.

Lemma trimStart_shrinks (s : string) (c : ascii) :
  String.get 0 s = Some c -> isWhiteSpace c = true ->
  (String.length (trimStart s) < String.length s)%nat.
Proof.
  destruct s as [|d s]; simpl; [discriminate|].
  intros [= ->] ->. pose proof (length_trimStart s). lia.
Qed.

Lemma trimEnd_fixed (s : string) (c : ascii) :
  last s = Some c -> isWhiteSpace c = false -> trimEnd s = s.
Proof.
  induction s as [|d s IH]; [discriminate|].
  destruct s as [|e s].
  - unfold last. simpl. intros [= ->] ->. reflexivity.
  - rewrite last_cons. intros Hl Hw.
    change (trimEnd (String d (String e s)))
      with (match trimEnd (String e s) with
            | "" => if isWhiteSpace d then "" else String d ""
            | t => String d t
            end).
    rewrite (IH Hl Hw). reflexivity.
Qed.

Lemma trimEnd_shrinks (s : string) (c : ascii) :
  last s = Some c -> isWhiteSpace c = true ->
  (String.length (trimEnd s) < String.length s)%nat.
Proof.
  induction s as [|d s IH]; [discriminate|].
  destruct s as [|e s].
  - unfold last. simpl. intros [= ->] ->. simpl. lia.
  - rewrite last_cons. intros Hl Hw. specialize (IH Hl Hw).
    change (trimEnd (String d (String e s)))
      with (match trimEnd (String e s) with
            | "" => if isWhiteSpace d then "" else String d ""
            | t => String d t
            end).
    destruct (trimEnd (String e s)) as [|x t];
      [destruct (isWhiteSpace d)|]; simpl in *; lia.
Qed.

Lemma trim_fixed (s : string) (c0 c1 : ascii) :
  String.get 0 s = Some c0 -> isWhiteSpace c0 = false ->
  last s = Some c1 -> isWhiteSpace c1 = false ->
  trim s = s.
Proof.
  intros H0 W0 H1 W1. unfold trim.
  rewrite (trimStart_fixed s c0 H0 W0). exact (trimEnd_fixed s c1 H1 W1).
Qed.

End JSFacts.
Import JS Wrapper.

(** ** The importance heuristic *)

Lemma highValueWords_NoDup : List.NoDup highValueWords.
Proof.
  unfold highValueWords.
  repeat (constructor; [simpl; intuition discriminate|]). constructor.
Qed.

Lemma matches_bounds (lower : string) :
  0 <= Z.of_nat (List.length
         (List.filter (fun w => includes lower w) highValueWords)) <= 8.
Proof.
  split; [lia|].
  pose proof (List.filter_length_le (fun w => includes lower w) highValueWords) as H.
  assert (List.length highValueWords = 8%nat) as E by reflexivity.
  lia.
Qed.

(** The heuristic never leaves 5..10: the base is 5, every adjustment
    adds, and the result is capped at 10. *)
Lemma calculateImportance_range (userMsg agentResp : string) :
  5 <= calculateImportance userMsg agentResp <= 10.
Proof.
  unfold calculateImportance.
  pose proof (matches_bounds (toLowerCase userMsg)) as Hm.
  destruct (100 <? len userMsg), (300 <? len userMsg),
    (includes (toLowerCase userMsg) "security" ||
     includes (toLowerCase userMsg) "password" ||
     includes (toLowerCase userMsg) "api key"); lia.
Qed.

(** The heuristic of the wrapper is not the scorer of the engine: for
    the message "decide" with the default content type the scorer gives
    5 and [calculateImportance] gives 6. *)
Lemma calculateImportance_is_not_the_scorer :
  Spec.computeImportance "decide" "conversation" = 5 /\
  calculateImportance "decide" "" = 6.
Proof. split; vm_compute; reflexivity. Qed.

(** X24: [calculateImportance] is base 5, plus 1 when the message is
    longer than 100 characters and 1 more when it is longer than 300,
    plus the number of high-value words found in the lower-cased message
    capped at 3, plus 3 when the lower-cased message contains "security",
    "password" or "api key"; the sum is capped at 10 (and is never below
    1). *)
Theorem calculateImportance_formula (userMsg agentResp : string) :
  exists (lengthBonus sensitiveBonus : Z) (matched : list string),
    calculateImportance userMsg agentResp =
      Z.max 1 (Z.min 10 (5 + lengthBonus
                           + Z.min 3 (Z.of_nat (List.length matched))
                           + sensitiveBonus)) /\
    lengthBonus = (if decide (100 < len userMsg) then 1 else 0)
                  + (if decide (300 < len userMsg) then 1 else 0) /\
    List.NoDup matched /\
    (forall w, List.In w matched <->
               List.In w highValueWords /\ Contains (toLowerCase userMsg) w) /\
    (sensitiveBonus = 3 /\
       (Contains (toLowerCase userMsg) "security" \/
        Contains (toLowerCase userMsg) "password" \/
        Contains (toLowerCase userMsg) "api key")
     \/
     sensitiveBonus = 0 /\
       ~ (Contains (toLowerCase userMsg) "security" \/
          Contains (toLowerCase userMsg) "password" \/
          Contains (toLowerCase userMsg) "api key")).
Proof.
  set (lower := toLowerCase userMsg).
  exists ((if decide (100 < len userMsg) then 1 else 0)
          + (if decide (300 < len userMsg) then 1 else 0)),
         (if includes lower "security" || includes lower "password" ||
             includes lower "api key" then 3 else 0),
         (List.filter (fun w => includes lower w) highValueWords).
  split; [|split; [reflexivity|split; [|split]]].
  - pose proof (calculateImportance_range userMsg agentResp) as Hr.
    unfold calculateImportance in *. fold lower in Hr |- *.
    pose proof (matches_bounds lower) as Hm.
    repeat case_decide;
      destruct (Z.ltb_spec 100 (len userMsg)), (Z.ltb_spec 300 (len userMsg));
      try lia;
      destruct (includes lower "security" || includes lower "password" ||
                includes lower "api key"); lia.
  - apply List.NoDup_filter, highValueWords_NoDup.
  - intros w. rewrite List.filter_In, JSFacts.includes_spec. reflexivity.
  - destruct (includes lower "security" || includes lower "password" ||
              includes lower "api key") eqn:E.
    + left. split; [reflexivity|].
      rewrite !orb_true_iff, !JSFacts.includes_spec in E. tauto.
    + right. split; [reflexivity|].
      rewrite !orb_false_iff, !JSFacts.includes_false in E. tauto.
Qed.

(** C8: the computed importance depends on the user message only: two
    runs with the same message and any two agent responses agree. *)
Theorem calculateImportance_ignores_response
    (userMsg agentResp1 agentResp2 : string) :
  calculateImportance userMsg agentResp1
  = calculateImportance userMsg agentResp2.
Proof. reflexivity. Qed.

(** ** The wrapper's [store] and [query] *)

Lemma get_Some_lt (s : string) (i : nat) (c : ascii) :
  String.get i s = Some c -> (i < String.length s)%nat.
Proof.
  revert i. induction s as [|d s IH]; intros i; [discriminate|].
  destruct i as [|i]; simpl; [lia|]. intros H. apply IH in H. lia.
Qed.

Lemma store_unfold {S I : Type}
    (memory_store : string -> gmap string value -> Eff S I)
    (content : string) (options : gmap string value) :
  store memory_store content options
  = memory_store (sanitize content) (store_options options).
Proof. reflexivity. Qed.

(** With the recording engine, [store] appends one record: the
    sanitized content with the merged options. *)
Lemma store_record (content : string) (options : gmap string value)
    (log : list Memory) :
  store record_store content options log
  = (Returned (List.length log),
     (log ++ [mkMemory (sanitize content) (store_options options)])%list).
Proof. reflexivity. Qed.

Lemma length_sanitize (content : string) :
  (String.length (sanitize content) <= 5000)%nat.
Proof.
  unfold sanitize.
  pose proof (JSFacts.length_trim (slice 0 5000 content)) as Ht.
  rewrite JSFacts.length_slice_0 in Ht. lia.
Qed.

Lemma sanitize_full_length (content : string) (c0 c1 : ascii) :
  String.get 0 content = Some c0 -> isWhiteSpace c0 = false ->
  String.get 4999 content = Some c1 -> isWhiteSpace c1 = false ->
  sanitize content = slice 0 5000 content /\
  String.length (sanitize content) = 5000%nat.
Proof.
  intros H0 W0 H1 W1.
  assert (String.length (slice 0 5000 content) = 5000%nat) as Hlen.
  { rewrite JSFacts.length_slice_0. apply get_Some_lt in H1. lia. }
  assert (sanitize content = slice 0 5000 content) as E.
  { unfold sanitize. apply (JSFacts.trim_fixed _ c0 c1); try assumption.
    - rewrite JSFacts.get_slice_0 by lia. exact H0.
    - unfold last. rewrite Hlen.
      replace (5000 - 1)%nat with 4999%nat by lia.
      rewrite JSFacts.get_slice_0 by lia. exact H1. }
  split; [exact E|]. rewrite E. exact Hlen.
Qed.

Lemma get_lt_Some (s : string) (i : nat) :
  (i < String.length s)%nat -> exists c, String.get i s = Some c.
Proof.
  revert i. induction s as [|d s IH]; intros i; simpl; [lia|].
  destruct i as [|i]; [eauto|]. intros H. apply IH. lia.
Qed.

(** The sanitized content fills all 5000 characters only when nothing
    was trimmed from a full 5000-character prefix. *)
Lemma sanitize_length_5000 (content : string) :
  String.length (sanitize content) = 5000%nat ->
  exists c0 c1,
    String.get 0 content = Some c0 /\ isWhiteSpace c0 = false /\
    String.get 4999 content = Some c1 /\ isWhiteSpace c1 = false.
Proof.
  unfold sanitize, trim. intros H.
  set (t := slice 0 5000 content) in *.
  pose proof (JSFacts.length_trimEnd (trimStart t)) as He.
  pose proof (JSFacts.length_trimStart t) as Hs.
  assert (String.length t = 5000%nat) as Hlen
    by (pose proof (JSFacts.length_slice_0 5000 content); fold t in H0; lia).
  destruct (get_lt_Some t 0) as [c0 H0]; [lia|].
  destruct (get_lt_Some t 4999) as [c1 H1]; [lia|].
  assert (isWhiteSpace c0 = false) as W0.
  { destruct (isWhiteSpace c0) eqn:W; [|reflexivity].
    pose proof (JSFacts.trimStart_shrinks t c0 H0 W). lia. }
  rewrite (JSFacts.trimStart_fixed t c0 H0 W0) in H.
  assert (last t = Some c1) as Hl.
  { unfold last. rewrite Hlen.
    replace (5000 - 1)%nat with 4999%nat by lia. exact H1. }
  assert (isWhiteSpace c1 = false) as W1.
  { destruct (isWhiteSpace c1) eqn:W; [|reflexivity].
    pose proof (JSFacts.trimEnd_shrinks t c1 Hl W). lia. }
  exists c0, c1. unfold t in H0, H1.
  rewrite JSFacts.get_slice_0 in H0, H1 by lia. auto.
Qed.

(** C2 (as stated, refuted): content of 5000 + 1 characters, the letter
    "a" followed by 5000 spaces, is persisted as the single character
    "a". *)
Lemma store_long_content_not_5000 :
  String.length ("a" ++ repeat " " 5000) = S 5000 /\
  store record_store ("a" ++ repeat " " 5000) ∅ []
  = (Returned 0%nat, [mkMemory "a" (store_options ∅)]).
Proof. split; vm_compute; reflexivity. Qed.

(** C2 (amended): [store] hands the engine the first 5000 characters of
    the content with surrounding white space removed.  That content is
    never longer than 5000 characters; it has exactly 5000 characters
    if and only if the input has a first and a 5000th character and
    neither is white space, and then it is the untouched 5000-character
    prefix. *)
Theorem store_truncates_then_trims {S I : Type}
    (memory_store : string -> gmap string value -> Eff S I)
    (content : string) (options : gmap string value) :
  store memory_store content options
    = memory_store (trim (slice 0 5000 content)) (store_options options) /\
  (forall log,
     store record_store content options log
     = (Returned (List.length log),
        (log ++ [mkMemory (trim (slice 0 5000 content))
                          (store_options options)])%list)) /\
  (String.length (trim (slice 0 5000 content)) <= 5000)%nat /\
  (forall c0 c1,
     String.get 0 content = Some c0 -> isWhiteSpace c0 = false ->
     String.get 4999 content = Some c1 -> isWhiteSpace c1 = false ->
     trim (slice 0 5000 content) = slice 0 5000 content /\
     String.length (trim (slice 0 5000 content)) = 5000%nat) /\
  (String.length (trim (slice 0 5000 content)) = 5000%nat ->
   exists c0 c1,
     String.get 0 content = Some c0 /\ isWhiteSpace c0 = false /\
     String.get 4999 content = Some c1 /\ isWhiteSpace c1 = false).
Proof.
  split; [reflexivity|]. split; [intros log; reflexivity|].
  split; [exact (length_sanitize content)|].
  split; [intros c0 c1; exact (sanitize_full_length content c0 c1)|].
  exact (sanitize_length_5000 content).
Qed.

Lemma store_truncates_then_trims_witness :
  String.length (trim (slice 0 5000 (repeat "a" 5000 ++ "b"))) = 5000%nat.
Proof.
  destruct (store_truncates_then_trims record_store (repeat "a" 5000 ++ "b") ∅)
    as (_ & _ & _ & H & _).
  apply (H "a"%char "a"%char); vm_compute; reflexivity.
Defined.

(** The merged options: a property the caller supplies wins, a missing
    one falls back to the wrapper's default. *)
Lemma lookup_spread (base extra : gmap string value) (k : string) :
  spread base extra !! k
  = match extra !! k with
    | Some v => Some v
    | None => base !! k
    end.
Proof.
  unfold spread. rewrite lookup_union.
  destruct (extra !! k), (base !! k); reflexivity.
Qed.

(** C6: [query] hands the engine the caller's options on top of the
    defaults limit 5 and days 30: an omitted [limit] is 5, an omitted
    [days] is 30, and a value the caller supplies for either replaces
    the default. *)
Theorem query_defaults {S R : Type}
    (memory_query : string -> gmap string value -> Eff S R)
    (queryString : string) (options : gmap string value) :
  query memory_query queryString options
    = memory_query queryString (query_options options) /\
  query_options options !! "limit"
    = Some (default (VNum 5) (options !! "limit")) /\
  query_options options !! "days"
    = Some (default (VNum 30) (options !! "days")) /\
  query_options ∅ !! "limit" = Some (VNum 5) /\
  query_options ∅ !! "days" = Some (VNum 30).
Proof.
  split; [reflexivity|]. unfold query_options.
  rewrite !lookup_spread, lookup_empty.
  repeat split; try reflexivity.
  - destruct (options !! "limit"); reflexivity.
  - destruct (options !! "days"); reflexivity.
Qed.


(** ** [autoStore] *)

(** Any high-value word found in the lower-cased message lifts the
    score to 6 or more. *)
Lemma high_value_word_importance (userMsg agentResp w : string) :
  List.In w highValueWords -> includes (toLowerCase userMsg) w = true ->
  6 <= calculateImportance userMsg agentResp.
Proof.
  intros Hin Hinc.
  assert (List.In w (List.filter (fun w => includes (toLowerCase userMsg) w)
                                 highValueWords)) as Hf
    by (apply List.filter_In; split; assumption).
  unfold calculateImportance.
  destruct (List.filter (fun w => includes (toLowerCase userMsg) w)
                        highValueWords) as [|x l]; [destruct Hf|].
  change (List.length (x :: l)) with (S (List.length l)).
  destruct (100 <? len userMsg), (300 <? len userMsg),
    (includes (toLowerCase userMsg) "security" ||
     includes (toLowerCase userMsg) "password" ||
     includes (toLowerCase userMsg) "api key"); lia.
Qed.

(** The test of [autoStore] for a decision is case-sensitive, and the
    three words it looks for are lower case and high-value words: a
    message that passes it scores at least 6. *)
Lemma decision_word_importance (userMessage agentResponse : string) :
  includes userMessage "decide" || includes userMessage "build" ||
  includes userMessage "create" = true ->
  6 <= calculateImportance userMessage agentResponse.
Proof.
  rewrite !orb_true_iff, !JSFacts.includes_spec.
  intros [[H|H]|H];
    apply (JSFacts.Contains_toLowerCase _ _ eq_refl) in H;
    apply JSFacts.includes_spec in H;
    (eapply high_value_word_importance; [|exact H]);
    unfold highValueWords; simpl; tauto.
Qed.

Lemma last_app_cons (s : string) (c : ascii) (t : string) :
  last (s ++ String c t) = last (String c t).
Proof.
  induction s as [|d s IH]; [reflexivity|].
  rewrite JSFacts.app_cons.
  destruct (s ++ String c t) as [|e u] eqn:E.
  - destruct s; discriminate.
  - rewrite JSFacts.last_cons. exact IH.
Qed.

(** A message of at most 4990 characters that does not end in white
    space is stored with its "Decision: " prefix unchanged. *)
Lemma sanitize_decision (userMessage : string) (c : ascii) :
  (String.length userMessage <= 4990)%nat ->
  last userMessage = Some c -> isWhiteSpace c = false ->
  sanitize ("Decision: " ++ userMessage) = "Decision: " ++ userMessage.
Proof.
  intros Hlen Hlast Hws. unfold sanitize.
  rewrite JSFacts.slice_0_short
    by (rewrite JSFacts.length_app; change (String.length "Decision: ") with 10%nat; lia).
  destruct userMessage as [|d u]; [discriminate|].
  apply (JSFacts.trim_fixed _ "D"%char c); try reflexivity; try assumption.
  rewrite last_app_cons. exact Hlast.
Qed.

(** C9 (as stated, refuted): for the message "let us build " (one
    trailing space) the importance is 6 and the message contains "build",
    so two Memories are stored, but the content of the second one is
    "Decision: let us build", which is not the message prefixed with
    "Decision: ". *)
Lemma autoStore_decision_content_trimmed :
  6 <= calculateImportance "let us build " "" /\
  includes "let us build " "build" = true /\
  autoStore record_store "let us build " "" []
  = (Returned tt,
     [mkMemory "let us build"
        (store_options {[ "type" := VStr "conversation";
                          "importance" := VNum 6 ]});
      mkMemory "Decision: let us build"
        (store_options {[ "type" := VStr "decision";
                          "importance" := VNum 9 ]})]) /\
  "Decision: let us build" <> "Decision: " ++ "let us build ".
Proof.
  split; [vm_compute; discriminate|].
  split; [vm_compute; reflexivity|].
  split; [vm_compute; reflexivity|].
  vm_compute. discriminate.
Qed.

(** C9 (amended): [autoStore] performs no write when the computed
    importance of the user message is below 6.  When the importance is
    at least 6 and the message contains "decide", "build" or "create",
    it calls [store] twice: first for the message, then for the message
    prefixed with "Decision: ", with type decision and importance 9; the
    content of the second Memory is that prefixed message as [store]
    sanitizes it (its first 5000 characters, trimmed), which is the
    prefixed message itself when the message has at most 4990 characters
    and does not end in white space. *)
Theorem autoStore_writes {S I : Type}
    (memory_store : string -> gmap string value -> Eff S I)
    (userMessage agentResponse : string) :
  let importance := calculateImportance userMessage agentResponse in
  (importance < 6 ->
   (forall s, autoStore memory_store userMessage agentResponse s
              = (Returned tt, s)) /\
   (forall log, autoStore record_store userMessage agentResponse log
                = (Returned tt, log))) /\
  (6 <= importance ->
   Contains userMessage "decide" \/ Contains userMessage "build" \/
   Contains userMessage "create" ->
   autoStore memory_store userMessage agentResponse
   = (_ ← store memory_store userMessage
            {[ "type" := VStr (if 8 <=? importance
                               then "insight" else "conversation");
               "importance" := VNum importance ]};
      _ ← store memory_store ("Decision: " ++ userMessage)
            {[ "type" := VStr "decision"; "importance" := VNum 9 ]};
      mret tt) /\
   (forall log,
      autoStore record_store userMessage agentResponse log
      = (Returned tt,
         (log ++
          [mkMemory (sanitize userMessage)
             (store_options
                {[ "type" := VStr (if 8 <=? importance
                                   then "insight" else "conversation");
                   "importance" := VNum importance ]});
           mkMemory (sanitize ("Decision: " ++ userMessage))
             (store_options {[ "type" := VStr "decision";
                               "importance" := VNum 9 ]})])%list)) /\
   (forall c,
      (String.length userMessage <= 4990)%nat ->
      last userMessage = Some c -> isWhiteSpace c = false ->
      sanitize ("Decision: " ++ userMessage) = "Decision: " ++ userMessage)).
Proof.
  cbv zeta. split.
  - intros Hlow. apply Z.leb_gt in Hlow.
    split; intros s; unfold autoStore; rewrite Hlow; reflexivity.
  - intros Hhigh Hword. apply Z.leb_le in Hhigh.
    rewrite <- !JSFacts.includes_spec, <- !orb_true_iff, orb_assoc in Hword.
    split; [|split].
    + unfold autoStore. rewrite Hhigh, Hword. reflexivity.
    + intros log. unfold autoStore. rewrite Hhigh, Hword.
      unfold mbind, eff_mbind, eff_bind. rewrite !store_record.
      unfold mret, eff_mret, eff_ret. rewrite <- List.app_assoc. reflexivity.
    + intros c. apply sanitize_decision.
Qed.

Lemma autoStore_writes_witness :
  autoStore record_store "hello" "" [] = (Returned tt, []) /\
  autoStore record_store "We should build it" "" []
  = (Returned tt,
     [mkMemory "We should build it"
        (store_options {[ "type" := VStr "conversation";
                          "importance" := VNum 6 ]});
      mkMemory "Decision: We should build it"
        (store_options {[ "type" := VStr "decision";
                          "importance" := VNum 9 ]})]).
Proof.
  split.
  - apply (autoStore_writes record_store "hello" ""). vm_compute. reflexivity.
  - destruct (autoStore_writes record_store "We should build it" "")
      as [_ H].
    destruct H as (_ & H & _).
    + vm_compute. discriminate.
    + right; left. exists "We should ", " it". reflexivity.
    + exact (H []).
Defined.

(** ** The installer *)

Lemma MEMORY_DIR_not_root (workspace : list string) :
  Installer.MEMORY_DIR workspace <> [].
Proof.
  unfold Installer.MEMORY_DIR, Installer.path_join.
  destruct workspace; discriminate.
Qed.

Lemma lookup_node_MEMORY_DIR (tree : gmap (list string) Installer.node)
    (workspace : list string) :
  Installer.lookup_node tree (Installer.MEMORY_DIR workspace)
  = tree !! Installer.MEMORY_DIR workspace.
Proof.
  pose proof (MEMORY_DIR_not_root workspace) as H.
  destruct (Installer.MEMORY_DIR workspace); [congruence|reflexivity].
Qed.

(** C10: when the installation directory already exists, [main] returns
    without throwing, leaves the file tree exactly as it was, and only
    prints three lines. *)
Theorem main_already_installed (workspace : list string) (w : Installer.World) :
  is_Some (Installer.fs w !! Installer.MEMORY_DIR workspace) ->
  Installer.main workspace w
  = (Returned tt,
     Installer.mkWorld (Installer.fs w)
       (Installer.console w ++
        [Installer.Banner; Installer.AlreadyInstalled;
         Installer.Location (Installer.MEMORY_DIR workspace)])%list) /\
  Installer.fs (snd (Installer.main workspace w)) = Installer.fs w.
Proof.
  intros [n Hn].
  assert (Installer.main workspace w
          = (Returned tt,
             Installer.mkWorld (Installer.fs w)
               (Installer.console w ++
                [Installer.Banner; Installer.AlreadyInstalled;
                 Installer.Location (Installer.MEMORY_DIR workspace)])%list))
    as E.
  { unfold Installer.main, mbind, eff_mbind, eff_bind, mret, eff_mret, eff_ret,
      Installer.console_log, Installer.existsSync.
    cbn [Installer.fs Installer.console].
    rewrite lookup_node_MEMORY_DIR, Hn.
    cbn [Installer.fs Installer.console].
    rewrite <- !List.app_assoc. reflexivity. }
  split; [exact E|]. rewrite E. reflexivity.
Qed.

Lemma main_already_installed_witness :
  Installer.fs
    (snd (Installer.main Installer.default_workspace
            (Installer.mkWorld
               {[ Installer.MEMORY_DIR Installer.default_workspace
                  := Installer.Dir ]} [])))
  = {[ Installer.MEMORY_DIR Installer.default_workspace := Installer.Dir ]}.
Proof.
  refine (proj2 (main_already_installed Installer.default_workspace
                   (Installer.mkWorld
                      {[ Installer.MEMORY_DIR Installer.default_workspace
                         := Installer.Dir ]} []) _)).
  exists Installer.Dir. vm_compute. reflexivity.
Defined.


(** When the engine refuses the first write, [autoStore] throws at that
    [await] and never attempts the second one. *)
Example autoStore_engine_refuses :
  autoStore refuse_store "We should build it" "" []
  = (Threw "BackendUnavailableError", []).
Proof. vm_compute. reflexivity. Qed.

(** * Further properties of the wrapper *)

(** ** [calculateImportance] *)

(** X1: the score depends on the message only through its length and
    its lower-cased form: two messages of the same length with the same
    lower-cased form get the same score, whatever the agent responses. *)
Theorem calculateImportance_case_insensitive
    (userMsg1 userMsg2 agentResp1 agentResp2 : string) :
  len userMsg1 = len userMsg2 ->
  toLowerCase userMsg1 = toLowerCase userMsg2 ->
  calculateImportance userMsg1 agentResp1
  = calculateImportance userMsg2 agentResp2.
Proof.
  intros El E. unfold calculateImportance. rewrite E, El. reflexivity.
Qed.

Lemma calculateImportance_case_insensitive_witness :
  calculateImportance "We must BUILD it" "ok"
  = calculateImportance "we must build IT" "".
Proof.
  apply calculateImportance_case_insensitive; vm_compute; reflexivity.
Defined.

Lemma filter_nil_iff {A : Type} (f : A -> bool) (l : list A) :
  List.filter f l = [] <-> forall x, List.In x l -> f x = false.
Proof.
  split.
  - intros E x Hx. destruct (f x) eqn:Ef; [|reflexivity].
    assert (List.In x (List.filter f l)) as H
      by (apply List.filter_In; split; assumption).
    rewrite E in H. destruct H.
  - intros H. induction l as [|a l IH]; [reflexivity|]. simpl.
    rewrite (H a (or_introl eq_refl)). apply IH.
    intros x Hx. apply H. right. exact Hx.
Qed.

(** X2: the score stays at the base of 5 (below the threshold 6 of
    [autoStore]) exactly when the message has at most 100 characters and
    its lower-cased form contains no high-value word and none of
    "security", "password", "api key". *)
Theorem calculateImportance_below_threshold_iff (userMsg agentResp : string) :
  calculateImportance userMsg agentResp < 6 <->
  len userMsg <= 100 /\
  (forall w, List.In w highValueWords ->
             ~ Contains (toLowerCase userMsg) w) /\
  ~ Contains (toLowerCase userMsg) "security" /\
  ~ Contains (toLowerCase userMsg) "password" /\
  ~ Contains (toLowerCase userMsg) "api key".
Proof.
  set (lower := toLowerCase userMsg).
  assert ((forall w, List.In w highValueWords -> ~ Contains lower w) <->
          List.filter (fun w => includes lower w) highValueWords = []) as Hkw.
  { rewrite filter_nil_iff. split; intros H w Hw.
    - apply JSFacts.includes_false, H, Hw.
    - apply JSFacts.includes_false, H, Hw. }
  assert (~ Contains lower "security" /\ ~ Contains lower "password" /\
          ~ Contains lower "api key" <->
          includes lower "security" || includes lower "password" ||
          includes lower "api key" = false) as Hsec.
  { rewrite !orb_false_iff, !JSFacts.includes_false. tauto. }
  rewrite Hkw.
  transitivity (len userMsg <= 100 /\
                List.filter (fun w => includes lower w) highValueWords = [] /\
                includes lower "security" || includes lower "password" ||
                includes lower "api key" = false);
    [|rewrite <- Hsec; tauto].
  unfold calculateImportance. fold lower.
  pose proof (matches_bounds lower) as Hm.
  destruct (List.filter (fun w => includes lower w) highValueWords)
    as [|x l] eqn:Ef.
  - destruct (Z.ltb_spec 100 (len userMsg)), (Z.ltb_spec 300 (len userMsg)),
      (includes lower "security" || includes lower "password" ||
       includes lower "api key"); simpl List.length;
      split; try lia; try (intros (? & ? & ?); try lia; discriminate);
      intros _; repeat split; try lia.
  - change (List.length (x :: l)) with (S (List.length l)) in *.
    split; [|intros (_ & H & _); discriminate].
    destruct (100 <? len userMsg), (300 <? len userMsg),
      (includes lower "security" || includes lower "password" ||
       includes lower "api key"); lia.
Qed.

(** Any of the three sensitive words lifts the score to 8 or more. *)
Lemma sensitive_word_importance (userMsg agentResp : string) :
  includes (toLowerCase userMsg) "security" ||
  includes (toLowerCase userMsg) "password" ||
  includes (toLowerCase userMsg) "api key" = true ->
  8 <= calculateImportance userMsg agentResp.
Proof.
  intros H. unfold calculateImportance. rewrite H.
  pose proof (matches_bounds (toLowerCase userMsg)) as Hm.
  destruct (100 <? len userMsg), (300 <? len userMsg); lia.
Qed.

(** ** [autoStore] *)

(** What [autoStore] appends to the log of the recording engine. *)
Lemma autoStore_record (userMessage agentResponse : string)
    (log : list Memory) :
  autoStore record_store userMessage agentResponse log
  = (Returned tt,
     (log ++
      (if 6 <=? calculateImportance userMessage agentResponse then
         mkMemory (sanitize userMessage)
           (store_options
              {[ "type" := VStr (if 8 <=? calculateImportance userMessage
                                            agentResponse
                                 then "insight" else "conversation");
                 "importance" := VNum (calculateImportance userMessage
                                         agentResponse) ]})
         :: (if includes userMessage "decide" ||
                includes userMessage "build" ||
                includes userMessage "create"
             then [mkMemory (sanitize ("Decision: " ++ userMessage))
                     (store_options {[ "type" := VStr "decision";
                                       "importance" := VNum 9 ]})]
             else [])
       else []))%list).
Proof.
  unfold autoStore.
  destruct (6 <=? calculateImportance userMessage agentResponse).
  - destruct (includes userMessage "decide" || includes userMessage "build" ||
              includes userMessage "create").
    + unfold mbind, eff_mbind, eff_bind. rewrite !store_record.
      unfold mret, eff_mret, eff_ret. rewrite <- List.app_assoc. reflexivity.
    + unfold mbind, eff_mbind, eff_bind. rewrite !store_record.
      reflexivity.
  - unfold mret, eff_mret, eff_ret. rewrite List.app_nil_r. reflexivity.
Qed.

(** X3: a message that mentions "security", "password" or "api key"
    (in any letter case) scores at least 8, so [autoStore] always
    persists it, typed insight, with the computed importance. *)
Theorem autoStore_sensitive_is_insight
    (userMessage agentResponse : string) (log : list Memory) :
  Contains (toLowerCase userMessage) "security" \/
  Contains (toLowerCase userMessage) "password" \/
  Contains (toLowerCase userMessage) "api key" ->
  8 <= calculateImportance userMessage agentResponse /\
  exists rest,
    autoStore record_store userMessage agentResponse log
    = (Returned tt,
       (log ++
        mkMemory (sanitize userMessage)
          (store_options
             {[ "type" := VStr "insight";
                "importance" := VNum (calculateImportance userMessage
                                        agentResponse) ]})
        :: rest)%list).
Proof.
  intros H.
  rewrite <- !JSFacts.includes_spec, <- !orb_true_iff, orb_assoc in H.
  pose proof (sensitive_word_importance userMessage agentResponse H) as H8.
  split; [exact H8|].
  rewrite autoStore_record.
  rewrite (proj2 (Z.leb_le 6 _)) by lia.
  rewrite (proj2 (Z.leb_le 8 _)) by lia.
  eexists. reflexivity.
Qed.

Lemma autoStore_sensitive_is_insight_witness :
  exists rest,
    autoStore record_store "my PASSWORD is hunter2" "" []
    = (Returned tt,
       mkMemory "my PASSWORD is hunter2"
         (store_options {[ "type" := VStr "insight";
                           "importance" := VNum 8 ]})
       :: rest).
Proof.
  destruct (autoStore_sensitive_is_insight "my PASSWORD is hunter2" "" [])
    as [_ [rest H]].
  - right; left. exists "my ", " is hunter2". reflexivity.
  - exists rest. exact H.
Defined.

(** X4: the decision test alone decides: a message that contains
    "decide", "build" or "create" (lower case, as written) always scores
    at least 6, so [autoStore] never skips it: for every engine it is the
    sequence of the two calls of [store], the message first and, once
    that write has returned, the "Decision: " Memory; on the recording
    engine, which accepts every write, both Memories are persisted. *)
Theorem autoStore_decision_word_two_writes {S I : Type}
    (memory_store : string -> gmap string value -> Eff S I)
    (userMessage agentResponse : string) :
  Contains userMessage "decide" \/ Contains userMessage "build" \/
  Contains userMessage "create" ->
  6 <= calculateImportance userMessage agentResponse /\
  autoStore memory_store userMessage agentResponse
  = (_ ← store memory_store userMessage
           {[ "type" := VStr (if 8 <=? calculateImportance userMessage
                                         agentResponse
                              then "insight" else "conversation");
              "importance" := VNum (calculateImportance userMessage
                                      agentResponse) ]};
     _ ← store memory_store ("Decision: " ++ userMessage)
           {[ "type" := VStr "decision"; "importance" := VNum 9 ]};
     mret tt) /\
  (forall log,
     autoStore record_store userMessage agentResponse log
     = (Returned tt,
        (log ++
         [mkMemory (sanitize userMessage)
            (store_options
               {[ "type" := VStr (if 8 <=? calculateImportance userMessage
                                             agentResponse
                                  then "insight" else "conversation");
                  "importance" := VNum (calculateImportance userMessage
                                          agentResponse) ]});
          mkMemory (sanitize ("Decision: " ++ userMessage))
            (store_options {[ "type" := VStr "decision";
                              "importance" := VNum 9 ]})])%list)).
Proof.
  intros H.
  rewrite <- !JSFacts.includes_spec, <- !orb_true_iff, orb_assoc in H.
  pose proof (decision_word_importance userMessage agentResponse H) as H6.
  split; [exact H6|]. split.
  - unfold autoStore. rewrite (proj2 (Z.leb_le 6 _) H6), H. reflexivity.
  - intros log. rewrite autoStore_record, (proj2 (Z.leb_le 6 _) H6), H.
    reflexivity.
Qed.

Lemma autoStore_decision_word_two_writes_witness :
  autoStore record_store "please create a plan" "" []
  = (Returned tt,
     [mkMemory "please create a plan"
        (store_options {[ "type" := VStr "conversation";
                          "importance" := VNum 6 ]});
      mkMemory "Decision: please create a plan"
        (store_options {[ "type" := VStr "decision";
                          "importance" := VNum 9 ]})]).
Proof.
  destruct (autoStore_decision_word_two_writes record_store
              "please create a plan" "") as (_ & _ & H).
  - right; right. exists "please ", " a plan". reflexivity.
  - exact (H []).
Defined.

(** X5: a message that reaches the threshold without containing
    "decide", "build" or "create" as written (the test is case-sensitive)
    is stored exactly once. *)
Theorem autoStore_single_write {S I : Type}
    (memory_store : string -> gmap string value -> Eff S I)
    (userMessage agentResponse : string) (log : list Memory) :
  6 <= calculateImportance userMessage agentResponse ->
  ~ Contains userMessage "decide" -> ~ Contains userMessage "build" ->
  ~ Contains userMessage "create" ->
  autoStore memory_store userMessage agentResponse
  = (_ ← store memory_store userMessage
           {[ "type" := VStr (if 8 <=? calculateImportance userMessage
                                         agentResponse
                              then "insight" else "conversation");
              "importance" := VNum (calculateImportance userMessage
                                      agentResponse) ]};
     mret tt) /\
  autoStore record_store userMessage agentResponse log
  = (Returned tt,
     (log ++
      [mkMemory (sanitize userMessage)
         (store_options
            {[ "type" := VStr (if 8 <=? calculateImportance userMessage
                                          agentResponse
                               then "insight" else "conversation");
               "importance" := VNum (calculateImportance userMessage
                                       agentResponse) ]})])%list).
Proof.
  intros H6 Hd Hb Hc.
  apply JSFacts.includes_false in Hd, Hb, Hc.
  split.
  - unfold autoStore. rewrite (proj2 (Z.leb_le 6 _) H6), Hd, Hb, Hc.
    reflexivity.
  - rewrite autoStore_record, (proj2 (Z.leb_le 6 _) H6), Hd, Hb, Hc.
    reflexivity.
Qed.

Lemma autoStore_single_write_witness :
  autoStore record_store "We should BUILD it" "" []
  = (Returned tt,
     [mkMemory "We should BUILD it"
        (store_options {[ "type" := VStr "conversation";
                          "importance" := VNum 6 ]})]).
Proof.
  refine (proj2 (autoStore_single_write record_store
                   "We should BUILD it" "" [] _ _ _ _));
    try (apply JSFacts.includes_false; vm_compute; reflexivity).
  vm_compute. discriminate.
Defined.

(** X6: when the engine rejects the first write, [autoStore] fails with
    that error at once: the decision write is never attempted, and the
    engine state is the one the failed call left. *)
Theorem autoStore_first_write_fails {S I : Type}
    (memory_store : string -> gmap string value -> Eff S I)
    (userMessage agentResponse : string) (s s' : S) (e : string) :
  6 <= calculateImportance userMessage agentResponse ->
  memory_store (sanitize userMessage)
    (store_options
       {[ "type" := VStr (if 8 <=? calculateImportance userMessage
                                     agentResponse
                          then "insight" else "conversation");
          "importance" := VNum (calculateImportance userMessage
                                  agentResponse) ]}) s
  = (Threw e, s') ->
  autoStore memory_store userMessage agentResponse s = (Threw e, s').
Proof.
  intros H6 Hfail. unfold autoStore. rewrite (proj2 (Z.leb_le 6 _) H6).
  unfold mbind, eff_mbind, eff_bind. rewrite store_unfold, Hfail.
  reflexivity.
Qed.

Lemma autoStore_first_write_fails_witness :
  autoStore refuse_store "We should build it" "" []
  = (Threw "BackendUnavailableError", []).
Proof.
  apply autoStore_first_write_fails.
  - vm_compute. discriminate.
  - reflexivity.
Defined.

(** X7: there is no rollback: when the first write succeeds and the
    decision write is rejected, [autoStore] fails with that error and the
    engine keeps the state after the first write. *)
Theorem autoStore_second_write_fails {S I : Type}
    (memory_store : string -> gmap string value -> Eff S I)
    (userMessage agentResponse : string) (s s1 s2 : S) (id : I) (e : string) :
  Contains userMessage "decide" \/ Contains userMessage "build" \/
  Contains userMessage "create" ->
  memory_store (sanitize userMessage)
    (store_options
       {[ "type" := VStr (if 8 <=? calculateImportance userMessage
                                     agentResponse
                          then "insight" else "conversation");
          "importance" := VNum (calculateImportance userMessage
                                  agentResponse) ]}) s
  = (Returned id, s1) ->
  memory_store (sanitize ("Decision: " ++ userMessage))
    (store_options {[ "type" := VStr "decision"; "importance" := VNum 9 ]}) s1
  = (Threw e, s2) ->
  autoStore memory_store userMessage agentResponse s = (Threw e, s2).
Proof.
  intros H H1 H2.
  rewrite <- !JSFacts.includes_spec, <- !orb_true_iff, orb_assoc in H.
  pose proof (decision_word_importance userMessage agentResponse H) as H6.
  unfold autoStore. rewrite (proj2 (Z.leb_le 6 _) H6), H.
  unfold mbind, eff_mbind, eff_bind. rewrite !store_unfold, H1, H2.
  reflexivity.
Qed.

Lemma autoStore_second_write_fails_witness :
  autoStore (Engines.quota_store 1) "We should build it" "" []
  = (Threw "BackendUnavailableError",
     [mkMemory "We should build it"
        (store_options {[ "type" := VStr "conversation";
                          "importance" := VNum 6 ]})]).
Proof.
  eapply (autoStore_second_write_fails (Engines.quota_store 1)
            "We should build it" "" [] _ _ 0%nat).
  - right; left. exists "We should ", " it". reflexivity.
  - vm_compute. reflexivity.
  - vm_compute. reflexivity.
Defined.

(** X8: whatever the message, [autoStore] writes at most two Memories,
    and each of them carries the agent identity "OpenClaw", the source
    "openclaw-chat", an importance between 6 and 10 and content of at
    most 5000 characters. *)
Theorem autoStore_written_memories
    (userMessage agentResponse : string) (log : list Memory) :
  exists new : list Memory,
    autoStore record_store userMessage agentResponse log
    = (Returned tt, (log ++ new)%list) /\
    (List.length new <= 2)%nat /\
    List.Forall
      (fun m =>
         options m !! "agentId" = Some (VStr "OpenClaw") /\
         options m !! "source" = Some (VStr "openclaw-chat") /\
         (exists n, options m !! "importance" = Some (VNum n) /\
                    6 <= n <= 10) /\
         (String.length (content m) <= 5000)%nat)
      new.
Proof.
  eexists. split; [apply autoStore_record|].
  pose proof (calculateImportance_range userMessage agentResponse) as Hr.
  destruct (Z.leb_spec 6 (calculateImportance userMessage agentResponse));
    [|split; [simpl; lia|constructor]].
  assert (forall c ty n, 6 <= n <= 10 ->
            options (mkMemory (sanitize c)
                       (store_options {[ "type" := VStr ty;
                                         "importance" := VNum n ]}))
              !! "agentId" = Some (VStr "OpenClaw") /\
            options (mkMemory (sanitize c)
                       (store_options {[ "type" := VStr ty;
                                         "importance" := VNum n ]}))
              !! "source" = Some (VStr "openclaw-chat") /\
            (exists k, options (mkMemory (sanitize c)
                          (store_options {[ "type" := VStr ty;
                                            "importance" := VNum n ]}))
                         !! "importance" = Some (VNum k) /\ 6 <= k <= 10) /\
            (String.length (content (mkMemory (sanitize c)
                          (store_options {[ "type" := VStr ty;
                                            "importance" := VNum n ]})))
             <= 5000)%nat) as Hm.
  { intros c ty n Hn. cbn [options content]. unfold store_options.
    rewrite !lookup_spread.
    repeat split; try reflexivity.
    - exists n. split; [reflexivity|exact Hn].
    - apply length_sanitize. }
  destruct (includes userMessage "decide" || includes userMessage "build" ||
            includes userMessage "create").
  - split; [simpl; lia|].
    apply List.Forall_cons; [apply Hm; lia|].
    apply List.Forall_cons; [apply Hm; lia|]. apply List.Forall_nil.
  - split; [simpl; lia|].
    apply List.Forall_cons; [apply Hm; lia|]. apply List.Forall_nil.
Qed.

(** ** [store]: the sanitized content *)

Lemma trimStart_head (s : string) (c : ascii) :
  String.get 0 (trimStart s) = Some c -> isWhiteSpace c = false.
Proof.
  induction s as [|d s IH]; simpl; [discriminate|].
  destruct (isWhiteSpace d) eqn:W; [exact IH|].
  simpl. intros [= <-]. exact W.
Qed.

Lemma trimEnd_head (s : string) (c : ascii) :
  String.get 0 (trimEnd s) = Some c -> String.get 0 s = Some c.
Proof.
  destruct s as [|d s]; simpl; [discriminate|].
  destruct (trimEnd s); [destruct (isWhiteSpace d)|]; simpl;
    try discriminate; intros H; exact H.
Qed.

Lemma trimEnd_last (s : string) (c : ascii) :
  last (trimEnd s) = Some c -> isWhiteSpace c = false.
Proof.
  induction s as [|d s IH]; simpl; [discriminate|].
  destruct (trimEnd s) as [|x t].
  - destruct (isWhiteSpace d) eqn:W; [discriminate|].
    unfold last. simpl. intros [= <-]. exact W.
  - rewrite JSFacts.last_cons. exact IH.
Qed.

Lemma last_nonempty (c : ascii) (s : string) :
  exists d, last (String c s) = Some d.
Proof. apply get_lt_Some. simpl. lia. Qed.

Lemma trimEnd_idempotent (s : string) : trimEnd (trimEnd s) = trimEnd s.
Proof.
  destruct (trimEnd s) as [|c t] eqn:E; [reflexivity|].
  destruct (last_nonempty c t) as [d Hd].
  apply (JSFacts.trimEnd_fixed _ d Hd).
  apply (trimEnd_last s). rewrite E. exact Hd.
Qed.

Lemma trim_head (s : string) (c : ascii) :
  String.get 0 (trim s) = Some c -> isWhiteSpace c = false.
Proof. intros H. apply trimEnd_head in H. exact (trimStart_head s c H). Qed.

Lemma trim_idempotent (s : string) : trim (trim s) = trim s.
Proof.
  unfold trim at 1.
  assert (trimStart (trim s) = trim s) as ->.
  { destruct (trim s) as [|c t] eqn:E; [reflexivity|].
    apply (JSFacts.trimStart_fixed _ c); [reflexivity|].
    apply (trim_head s). rewrite E. reflexivity. }
  apply trimEnd_idempotent.
Qed.

(** X9: sanitizing is idempotent: content that went through [store]
    once is handed over unchanged when it is stored again. *)
Theorem sanitize_idempotent (content : string) :
  sanitize (sanitize content) = sanitize content.
Proof.
  unfold sanitize at 1.
  rewrite JSFacts.slice_0_short by apply length_sanitize.
  unfold sanitize. apply trim_idempotent.
Qed.

(** X10: the content handed to the engine never begins and never ends
    with white space. *)
Theorem sanitize_no_surrounding_whitespace (content : string) (c : ascii) :
  (String.get 0 (sanitize content) = Some c -> isWhiteSpace c = false) /\
  (last (sanitize content) = Some c -> isWhiteSpace c = false).
Proof.
  unfold sanitize. split; [apply trim_head|apply trimEnd_last].
Qed.

Lemma sanitize_no_surrounding_whitespace_witness :
  isWhiteSpace "a" = false /\ isWhiteSpace "c" = false.
Proof.
  split.
  - apply (proj1 (sanitize_no_surrounding_whitespace "  abc  " "a")).
    vm_compute. reflexivity.
  - apply (proj2 (sanitize_no_surrounding_whitespace "  abc  " "c")).
    vm_compute. reflexivity.
Defined.

Lemma trimStart_suffix (s : string) : exists pre, s = pre ++ trimStart s.
Proof.
  induction s as [|d s [pre IH]]; [exists ""; reflexivity|]. simpl.
  destruct (isWhiteSpace d).
  - exists (String d pre). rewrite JSFacts.app_cons. f_equal. exact IH.
  - exists "". reflexivity.
Qed.

Lemma trimEnd_prefix (s : string) : exists post, s = trimEnd s ++ post.
Proof.
  induction s as [|d s [post IH]]; [exists ""; reflexivity|]. simpl.
  destruct (trimEnd s) as [|x t].
  - destruct (isWhiteSpace d).
    + exists (String d s). reflexivity.
    + exists s. reflexivity.
  - exists post. rewrite JSFacts.app_cons. f_equal. exact IH.
Qed.

Lemma substring_0_prefix (n : nat) (s : string) :
  exists post, s = String.substring 0 n s ++ post.
Proof.
  revert s. induction n as [|n IH]; intros [|c s]; simpl.
  - exists "". reflexivity.
  - exists (String c s). reflexivity.
  - exists "". reflexivity.
  - destruct (IH s) as [post E]. exists post.
    rewrite JSFacts.app_cons. f_equal. exact E.
Qed.

(** X11: [store] never adds or rewrites characters: the content handed
    to the engine is a contiguous piece of the caller's content. *)
Theorem sanitize_substring (content : string) :
  Contains content (sanitize content).
Proof.
  unfold sanitize, trim, slice, Contains. rewrite Nat.sub_0_r.
  destruct (substring_0_prefix 5000 content) as [post1 E1].
  destruct (trimStart_suffix (String.substring 0 5000 content)) as [pre E2].
  destruct (trimEnd_prefix (trimStart (String.substring 0 5000 content)))
    as [post2 E3].
  exists pre, (post2 ++ post1).
  rewrite <- (JSFacts.app_assoc _ post2 post1), <- E3.
  rewrite <- (JSFacts.app_assoc pre _ post1), <- E2.
  exact E1.
Qed.

Lemma trimStart_empty_iff (s : string) :
  trimStart s = "" <->
  forall i c, String.get i s = Some c -> isWhiteSpace c = true.
Proof.
  induction s as [|d s IH]; simpl.
  - split; [intros _ i c; destruct i; discriminate|reflexivity].
  - destruct (isWhiteSpace d) eqn:W.
    + rewrite IH. split; intros H i c.
      * destruct i as [|i]; simpl; [intros [= <-]; exact W|apply H].
      * intros Hi. apply (H (S i)). exact Hi.
    + split; [discriminate|]. intros H.
      specialize (H 0%nat d eq_refl). congruence.
Qed.

Lemma trim_empty_iff (s : string) :
  trim s = "" <-> trimStart s = "".
Proof.
  unfold trim. split; [|intros ->; reflexivity].
  destruct (trimStart s) as [|c t] eqn:E; [reflexivity|].
  pose proof (trimStart_head s c) as Hc. rewrite E in Hc.
  specialize (Hc eq_refl). simpl.
  destruct (trimEnd t); [rewrite Hc|]; discriminate.
Qed.

(** X12: [store] hands the engine the empty string exactly when the
    first 5000 characters of the content are all white space (in
    particular for empty content); the wrapper itself rejects nothing. *)
Theorem sanitize_empty_iff (content : string) :
  sanitize content = "" <->
  forall i c, (i < 5000)%nat -> String.get i content = Some c ->
              isWhiteSpace c = true.
Proof.
  unfold sanitize. rewrite trim_empty_iff, trimStart_empty_iff.
  split; intros H i c.
  - intros Hi Hc. apply (H i). rewrite JSFacts.get_slice_0 by exact Hi.
    exact Hc.
  - intros Hc. destruct (Nat.lt_ge_cases i 5000) as [Hi|Hi].
    + rewrite JSFacts.get_slice_0 in Hc by exact Hi. exact (H i c Hi Hc).
    + unfold slice in Hc. rewrite substring_correct2 in Hc by lia.
      discriminate.
Qed.

(** X13: the content reaches the engine unchanged exactly when it has at
    most 5000 characters and neither begins nor ends with white space. *)
Theorem sanitize_unchanged_iff (content : string) :
  sanitize content = content <->
  (String.length content <= 5000)%nat /\
  (forall c, String.get 0 content = Some c -> isWhiteSpace c = false) /\
  (forall c, last content = Some c -> isWhiteSpace c = false).
Proof.
  split.
  - intros E. split; [rewrite <- E; apply length_sanitize|].
    split; intros c Hc; rewrite <- E in Hc; unfold sanitize in Hc.
    + exact (trim_head _ c Hc).
    + exact (trimEnd_last _ c Hc).
  - intros (Hlen & H0 & H1). unfold sanitize.
    rewrite JSFacts.slice_0_short by exact Hlen.
    destruct content as [|d s]; [reflexivity|].
    destruct (last_nonempty d s) as [e He].
    apply (JSFacts.trim_fixed _ d e); auto.
Qed.

(** X14: the options [store] hands to the engine are the caller's
    options, every one with the caller's value, plus [agentId] and
    [source]: nothing the caller passes is dropped or altered, and no
    other key is added. *)
Theorem store_options_keeps_caller_options
    (options : gmap string value) (k : string) :
  store_options options !! k
  = match options !! k with
    | Some v => Some v
    | None =>
        if String.eqb k "agentId" then Some (VStr "OpenClaw")
        else if String.eqb k "source" then Some (VStr "openclaw-chat")
        else None
    end.
Proof.
  unfold store_options. rewrite lookup_spread.
  destruct (options !! k); [reflexivity|].
  destruct (String.eqb_spec k "agentId") as [->|Ha]; [reflexivity|].
  destruct (String.eqb_spec k "source") as [->|Hs]; [reflexivity|].
  rewrite lookup_insert_ne by congruence.
  rewrite lookup_singleton_ne by congruence. reflexivity.
Qed.

(** ** [getSessionContext] *)

(** X15: [getSessionContext] asks the engine three queries, in this
    order and all for the agent "OpenClaw": "recent work" (limit 3, last
    7 days), "preference" (limit 5, the default 30 days) and "goal"
    (limit 3, the default 30 days, minimum importance 8); the answers
    become [recentMemories], [preferences] and [goals]. *)
Theorem getSessionContext_queries {Item : Type}
    (settlesFirst : list string -> string)
    (answer : string -> list Item) (log : list (string * gmap string value)) :
  Session.getSessionContext settlesFirst (Session.record_query answer) log
  = (Returned
       {| Session.recentMemories := answer "recent work";
          Session.preferences := answer "preference";
          Session.goals := answer "goal";
          Session.hasContext :=
            (0 <? Z.of_nat (List.length (answer "recent work"))) ||
            (0 <? Z.of_nat (List.length (answer "preference"))) |},
     (log ++
      [("recent work",
        {[ "agentId" := VStr "OpenClaw"; "limit" := VNum 3;
           "days" := VNum 7 ]});
       ("preference",
        {[ "agentId" := VStr "OpenClaw"; "limit" := VNum 5;
           "days" := VNum 30 ]});
       ("goal",
        {[ "agentId" := VStr "OpenClaw"; "limit" := VNum 3;
           "days" := VNum 30; "minImportance" := VNum 8 ]})])%list).
Proof.
  unfold Session.getSessionContext, Session.promise_all3, query,
    Session.record_query, mbind, eff_mbind, eff_bind, mret, eff_mret, eff_ret.
  rewrite <- !List.app_assoc. cbn [List.app].
  reflexivity.
Qed.

(** X16: when the three queries resolve, the result carries their three
    answers, and [hasContext] is true exactly when the recent memories or
    the preferences are not empty: goals alone do not make a context. *)
Theorem getSessionContext_hasContext {S Item : Type}
    (settlesFirst : list string -> string)
    (memory_query : string -> gmap string value -> Eff S (list Item))
    (s s1 s2 s3 : S) (recent preferences goals : list Item) :
  query memory_query "recent work"
    {[ "limit" := VNum 3; "days" := VNum 7 ]} s = (Returned recent, s1) ->
  query memory_query "preference"
    {[ "limit" := VNum 5 ]} s1 = (Returned preferences, s2) ->
  query memory_query "goal"
    {[ "minImportance" := VNum 8; "limit" := VNum 3 ]} s2
    = (Returned goals, s3) ->
  exists ctx,
    Session.getSessionContext settlesFirst memory_query s
    = (Returned ctx, s3) /\
    Session.recentMemories ctx = recent /\
    Session.preferences ctx = preferences /\
    Session.goals ctx = goals /\
    (Session.hasContext ctx = true <-> recent <> [] \/ preferences <> []).
Proof.
  intros H1 H2 H3.
  unfold Session.getSessionContext, Session.promise_all3,
    mbind, eff_mbind, eff_bind, mret, eff_mret, eff_ret.
  rewrite H1, H2, H3. eexists. split; [reflexivity|].
  cbn [Session.recentMemories Session.preferences Session.goals
       Session.hasContext].
  repeat split; try reflexivity.
  - rewrite orb_true_iff, !Z.ltb_lt.
    intros [H|H]; [left|right]; intros ->; simpl in H; lia.
  - rewrite orb_true_iff, !Z.ltb_lt.
    intros [H|H]; [left|right]; destruct recent, preferences;
      simpl; try congruence; lia.
Qed.

Lemma getSessionContext_hasContext_witness :
  exists ctx,
    Session.getSessionContext (fun _ => "")
      (Session.record_query
         (fun q => if String.eqb q "goal" then [1%nat; 2%nat] else [])) []
    = (Returned ctx,
       [("recent work", query_options {[ "limit" := VNum 3; "days" := VNum 7 ]});
        ("preference", query_options {[ "limit" := VNum 5 ]});
        ("goal", query_options {[ "minImportance" := VNum 8;
                                  "limit" := VNum 3 ]})]) /\
    Session.goals ctx = [1%nat; 2%nat] /\
    (Session.hasContext ctx = true <-> @nil nat <> [] \/ @nil nat <> []).
Proof.
  destruct (getSessionContext_hasContext (fun _ => "")
              (Session.record_query
                 (fun q => if String.eqb q "goal" then [1%nat; 2%nat] else []))
              [] _ _ _ [] [] [1%nat; 2%nat] eq_refl eq_refl eq_refl)
    as (ctx & H & _ & _ & Hg & Hc).
  exists ctx. split; [exact H|]. split; [exact Hg|exact Hc].
Defined.

(** X17: the three queries are started before any of them is awaited:
    when one of them fails, [getSessionContext] fails, and the other two
    have still been issued (the engine is left in the state after all
    three calls). *)
Theorem getSessionContext_failure {S Item : Type}
    (settlesFirst : list string -> string)
    (memory_query : string -> gmap string value -> Eff S (list Item))
    (s s1 s2 s3 : S) (r1 r2 r3 : outcome (list Item)) :
  query memory_query "recent work"
    {[ "limit" := VNum 3; "days" := VNum 7 ]} s = (r1, s1) ->
  query memory_query "preference" {[ "limit" := VNum 5 ]} s1 = (r2, s2) ->
  query memory_query "goal"
    {[ "minImportance" := VNum 8; "limit" := VNum 3 ]} s2 = (r3, s3) ->
  (exists e, r1 = Threw e) \/ (exists e, r2 = Threw e) \/
  (exists e, r3 = Threw e) ->
  exists e,
    Session.getSessionContext settlesFirst memory_query s = (Threw e, s3).
Proof.
  intros H1 H2 H3 Hfail.
  unfold Session.getSessionContext, Session.promise_all3,
    mbind, eff_mbind, eff_bind.
  rewrite H1, H2, H3.
  destruct r1 as [x|e1], r2 as [y|e2], r3 as [z|e3];
    try (eexists; reflexivity).
  destruct Hfail as [[e H]|[[e H]|[e H]]]; discriminate.
Qed.

Lemma getSessionContext_failure_witness :
  exists e,
    Session.getSessionContext (fun errors => List.hd "" errors)
      (Session.record_query_failing (Item := nat)
         (fun q => String.eqb q "recent work")) []
    = (Threw e,
       [("recent work", query_options {[ "limit" := VNum 3; "days" := VNum 7 ]});
        ("preference", query_options {[ "limit" := VNum 5 ]});
        ("goal", query_options {[ "minImportance" := VNum 8;
                                  "limit" := VNum 3 ]})]).
Proof.
  apply (getSessionContext_failure (fun errors => List.hd "" errors)
           (Session.record_query_failing (Item := nat)
              (fun q => String.eqb q "recent work"))
           [] _ _ _ _ _ _ eq_refl eq_refl eq_refl).
  left. eexists. reflexivity.
Defined.

(** * The wrapper on the engine of the specification *)

Lemma clampImportance_range (v : Z) : 1 <= Spec.clampImportance v <= 10.
Proof. unfold Spec.clampImportance. lia. Qed.

Lemma scoreImportance_range (content contentType : string)
    (explicit : option Z) :
  1 <= Spec.scoreImportance content contentType explicit <= 10.
Proof.
  destruct explicit as [v|]; simpl; [apply clampImportance_range|].
  unfold Spec.computeImportance. apply clampImportance_range.
Qed.

(** The engine finds the content the wrapper hands over already
    normalized. *)
Lemma sanitize_normalized (content : string) :
  trim (slice 0 5000 (sanitize content)) = sanitize content.
Proof.
  rewrite JSFacts.slice_0_short by apply length_sanitize.
  unfold sanitize. apply trim_idempotent.
Qed.

(** The wrapper's [store] on the engine of the specification. *)
Lemma store_on_engine (config : Installer.Config) (content : string)
    (options : gmap string value) (db : list Spec.Memory) :
  store (Spec.store config) content options db
  = if String.eqb (sanitize content) "" then (Threw "EmptyContentError", db)
    else
      match Spec.textOption (store_options options) "type",
            Spec.numberOption (store_options options) "importance",
            Spec.textOption (store_options options) "source",
            Spec.textOption (store_options options) "agentId" with
      | Returned ty, Returned explicit, Returned src, Returned agent =>
          (Returned (List.length db),
           (db ++
            [{| Spec.content := sanitize content;
                Spec.contentType := default "conversation" ty;
                Spec.importance :=
                  Spec.scoreImportance (sanitize content)
                    (default "conversation" ty) explicit;
                Spec.source := src;
                Spec.agentId := default (Installer.agentId config) agent |}])%list)
      | _, _, _, _ => (Threw "ValidationError", db)
      end.
Proof.
  rewrite store_unfold. unfold Spec.store.
  rewrite sanitize_normalized. reflexivity.
Qed.

Lemma sensitive_spec (content : string) :
  existsb (fun w => includes (toLowerCase content) w) Spec.sensitiveWords
  = true <->
  exists w, List.In w Spec.sensitiveWords /\
            Contains (toLowerCase content) w.
Proof.
  rewrite existsb_exists. split; intros (w & Hw & H); exists w;
    (split; [exact Hw|]); apply JSFacts.includes_spec; exact H.
Qed.

(** C1: with no explicit importance the scorer of the engine returns
    base 5, plus 1 for content longer than 200 characters (the whole
    length contribution), plus 2 for type insight, 1 for error, 2 for
    goal, plus 3 when the lower-cased content contains a word of the
    fixed sensitive list, the sum clamped to [1,10]; this is the
    importance of the Memory persisted when the wrapper's [store] is
    called with a type and no importance. *)
Theorem scorer_formula (config : Installer.Config)
    (content contentType : string) (db : list Spec.Memory) :
  (exists lengthBonus typeBonus sensitiveBonus : Z,
     Spec.scoreImportance content contentType None
     = Z.max 1 (Z.min 10 (5 + lengthBonus + typeBonus + sensitiveBonus)) /\
     lengthBonus = (if decide (200 < len content) then 1 else 0) /\
     typeBonus = (if decide (contentType = "insight") then 2
                  else if decide (contentType = "error") then 1
                  else if decide (contentType = "goal") then 2 else 0) /\
     (sensitiveBonus = 3 /\
        (exists w, List.In w Spec.sensitiveWords /\
                   Contains (toLowerCase content) w)
      \/
      sensitiveBonus = 0 /\
        ~ (exists w, List.In w Spec.sensitiveWords /\
                     Contains (toLowerCase content) w))) /\
  store (Spec.store config) content {[ "type" := VStr contentType ]} db
  = (if String.eqb (sanitize content) "" then (Threw "EmptyContentError", db)
     else
       (Returned (List.length db),
        (db ++
         [{| Spec.content := sanitize content;
             Spec.contentType := contentType;
             Spec.importance :=
               Spec.scoreImportance (sanitize content) contentType None;
             Spec.source := Some "openclaw-chat";
             Spec.agentId := "OpenClaw" |}])%list)).
Proof.
  split; [|rewrite store_on_engine; reflexivity].
  exists (if decide (200 < len content) then 1 else 0),
         (if decide (contentType = "insight") then 2
          else if decide (contentType = "error") then 1
          else if decide (contentType = "goal") then 2 else 0),
         (if existsb (fun w => includes (toLowerCase content) w)
                     Spec.sensitiveWords then 3 else 0).
  split; [|split; [reflexivity|split; [reflexivity|]]].
  - unfold Spec.scoreImportance, Spec.computeImportance, Spec.clampImportance.
    destruct (Z.ltb_spec 200 (len content));
      destruct (String.eqb_spec contentType "insight") as [Ei|Hi];
      destruct (String.eqb_spec contentType "error") as [Ee|He];
      destruct (String.eqb_spec contentType "goal") as [Eg|Hg];
      try congruence;
      repeat case_decide; try congruence; try lia;
      destruct (existsb _ Spec.sensitiveWords); lia.
  - destruct (existsb _ Spec.sensitiveWords) eqn:E.
    + left. split; [reflexivity|]. apply sensitive_spec. exact E.
    + right. split; [reflexivity|]. rewrite <- sensitive_spec, E.
      discriminate.
Qed.

(** C3: storing "User prefers dark mode" with type preference and no
    explicit importance persists a Memory of importance exactly 5: the
    content has 22 characters, the type is not insight, error or goal,
    and the content holds no sensitive word, so nothing is added to the
    base; this holds for the engine's [store] and for the wrapper's
    [store] on it. *)
Theorem dark_mode_store (config : Installer.Config)
    (db : list Spec.Memory) :
  len "User prefers dark mode" <= 200 /\
  (forall w, List.In w Spec.sensitiveWords ->
             ~ Contains (toLowerCase "User prefers dark mode") w) /\
  Spec.scoreImportance "User prefers dark mode" "preference" None = 5 /\
  Spec.store config "User prefers dark mode"
    {[ "type" := VStr "preference" ]} db
  = (Returned (List.length db),
     (db ++ [{| Spec.content := "User prefers dark mode";
                Spec.contentType := "preference";
                Spec.importance := 5;
                Spec.source := None;
                Spec.agentId := Installer.agentId config |}])%list) /\
  store (Spec.store config) "User prefers dark mode"
    {[ "type" := VStr "preference" ]} db
  = (Returned (List.length db),
     (db ++ [{| Spec.content := "User prefers dark mode";
                Spec.contentType := "preference";
                Spec.importance := 5;
                Spec.source := Some "openclaw-chat";
                Spec.agentId := "OpenClaw" |}])%list).
Proof.
  split; [vm_compute; discriminate|].
  split.
  { intros w [<-|[<-|[<-|[]]]]; apply JSFacts.includes_false;
      vm_compute; reflexivity. }
  split; [vm_compute; reflexivity|].
  split; [reflexivity|].
  rewrite store_on_engine. reflexivity.
Qed.

(** C4: storing "My API key leaked, this is a critical security issue"
    with no explicit importance triggers the sensitive-word bonus (the
    lower-cased content contains "security" and "api key", both on the
    list), so the persisted importance is 5 + 3 = 8, at least 8 and at
    most 10. *)
Theorem api_key_store (config : Installer.Config) (db : list Spec.Memory) :
  let content := "My API key leaked, this is a critical security issue" in
  List.In "security" Spec.sensitiveWords /\
  Contains (toLowerCase content) "security" /\
  List.In "api key" Spec.sensitiveWords /\
  Contains (toLowerCase content) "api key" /\
  Spec.scoreImportance content "conversation" None = 5 + 3 /\
  8 <= Spec.scoreImportance content "conversation" None <= 10 /\
  Spec.store config content ∅ db
  = (Returned (List.length db),
     (db ++ [{| Spec.content := content;
                Spec.contentType := "conversation";
                Spec.importance := 8;
                Spec.source := None;
                Spec.agentId := Installer.agentId config |}])%list) /\
  store (Spec.store config) content ∅ db
  = (Returned (List.length db),
     (db ++ [{| Spec.content := content;
                Spec.contentType := "conversation";
                Spec.importance := 8;
                Spec.source := Some "openclaw-chat";
                Spec.agentId := "OpenClaw" |}])%list).
Proof.
  cbv zeta.
  split; [simpl; tauto|].
  split; [apply JSFacts.includes_spec; vm_compute; reflexivity|].
  split; [simpl; tauto|].
  split; [apply JSFacts.includes_spec; vm_compute; reflexivity|].
  split; [vm_compute; reflexivity|].
  split; [vm_compute; split; discriminate|].
  split; [reflexivity|].
  rewrite store_on_engine. reflexivity.
Qed.

(** C5: the importance of a persisted Memory is always an integer in
    [1,10]: the scorer's result lies in that range whether it is
    computed or comes from the caller, an explicit value [v] becomes
    max(1, min(10, v)), every Memory the wrapper's [store] persists on
    the engine has its importance in the range, and an out-of-range
    importance passed through the wrapper is persisted clamped, not
    rejected. *)
Theorem importance_in_range (config : Installer.Config)
    (content contentType : string) (explicit : option Z) (v : Z)
    (options : gmap string value) (db : list Spec.Memory) :
  1 <= Spec.scoreImportance content contentType explicit <= 10 /\
  Spec.scoreImportance content contentType (Some v) = Z.max 1 (Z.min 10 v) /\
  match store (Spec.store config) content options db with
  | (Returned _, db') =>
      exists m, db' = (db ++ [m])%list /\ 1 <= Spec.importance m <= 10
  | (Threw _, db') => db' = db
  end /\
  store (Spec.store config) content {[ "importance" := VNum v ]} db
  = (if String.eqb (sanitize content) "" then (Threw "EmptyContentError", db)
     else
       (Returned (List.length db),
        (db ++
         [{| Spec.content := sanitize content;
             Spec.contentType := "conversation";
             Spec.importance := Z.max 1 (Z.min 10 v);
             Spec.source := Some "openclaw-chat";
             Spec.agentId := "OpenClaw" |}])%list)).
Proof.
  split; [apply scoreImportance_range|].
  split; [reflexivity|].
  split; [|rewrite store_on_engine; reflexivity].
  rewrite store_on_engine.
  destruct (String.eqb (sanitize content) ""); [reflexivity|].
  destruct (Spec.textOption (store_options options) "type");
    [|reflexivity].
  destruct (Spec.numberOption (store_options options) "importance");
    [|reflexivity].
  destruct (Spec.textOption (store_options options) "source");
    [|reflexivity].
  destruct (Spec.textOption (store_options options) "agentId");
    [|reflexivity].
  eexists. split; [reflexivity|]. apply scoreImportance_range.
Qed.

(** C7 (as stated, refuted): with a configuration whose default agent
    is "Research", the engine on its own gives a Memory stored without
    [agentId] the configured identity, but the wrapper's [store] persists
    it under "OpenClaw". *)
Lemma store_ignores_configured_agentId :
  let config :=
    Installer.mkConfig "sqlite" ["workspace"; ".memory-bridge"; "memory.db"]
                       "Research" "1.0.0" in
  Installer.agentId config = "Research" /\
  Spec.store config "hello" ∅ []
  = (Returned 0%nat,
     [{| Spec.content := "hello"; Spec.contentType := "conversation";
         Spec.importance := 5; Spec.source := None;
         Spec.agentId := "Research" |}]) /\
  store (Spec.store config) "hello" ∅ []
  = (Returned 0%nat,
     [{| Spec.content := "hello"; Spec.contentType := "conversation";
         Spec.importance := 5; Spec.source := Some "openclaw-chat";
         Spec.agentId := "OpenClaw" |}]) /\
  "OpenClaw" <> "Research".
Proof.
  cbv zeta. split; [reflexivity|]. split; [vm_compute; reflexivity|].
  split; [vm_compute; reflexivity|discriminate].
Qed.

(** C7 (amended): when the caller omits [agentId], [store] assigns the
    fixed identity "OpenClaw" to the persisted Memory, whatever default
    the configuration in use names; a caller-supplied [agentId] overrides
    it.  "OpenClaw" is the default agent the installer writes into the
    configuration, so the two agree for an installation left as
    written. *)
Theorem store_agentId_is_fixed {S I : Type}
    (memory_store : string -> gmap string value -> Eff S I)
    (config : Installer.Config) (workspace : list string)
    (content agent : string) (options : gmap string value)
    (db : list Spec.Memory) :
  store memory_store content options
    = memory_store (sanitize content) (store_options options) /\
  store_options options !! "agentId"
    = Some (default (VStr "OpenClaw") (options !! "agentId")) /\
  store (Spec.store config) content ∅ db
  = (if String.eqb (sanitize content) "" then (Threw "EmptyContentError", db)
     else
       (Returned (List.length db),
        (db ++
         [{| Spec.content := sanitize content;
             Spec.contentType := "conversation";
             Spec.importance :=
               Spec.scoreImportance (sanitize content) "conversation" None;
             Spec.source := Some "openclaw-chat";
             Spec.agentId := "OpenClaw" |}])%list)) /\
  store (Spec.store config) content {[ "agentId" := VStr agent ]} db
  = (if String.eqb (sanitize content) "" then (Threw "EmptyContentError", db)
     else
       (Returned (List.length db),
        (db ++
         [{| Spec.content := sanitize content;
             Spec.contentType := "conversation";
             Spec.importance :=
               Spec.scoreImportance (sanitize content) "conversation" None;
             Spec.source := Some "openclaw-chat";
             Spec.agentId := agent |}])%list)) /\
  Installer.agentId (Installer.config workspace) = "OpenClaw".
Proof.
  split; [reflexivity|].
  split.
  { unfold store_options. rewrite lookup_spread.
    destruct (options !! "agentId"); reflexivity. }
  split; [rewrite store_on_engine; reflexivity|].
  split; [rewrite store_on_engine; reflexivity|reflexivity].
Qed.

(** * Further properties of the installer *)

Import Installer Script.

(** ** The installer's file operations *)

Lemma in_prefixes (q p : list string) :
  List.In q (prefixes p) <-> q <> [] /\ q `prefix_of` p.
Proof.
  unfold prefixes. rewrite List.in_map_iff. split.
  - intros (n & <- & Hn). apply List.in_seq in Hn. split.
    + destruct p as [|a p]; simpl in Hn; [lia|].
      destruct n as [|n]; [lia|]. discriminate.
    + exists (drop n p). symmetry. apply take_drop.
  - intros (Hq & k & ->). exists (List.length q). split.
    + apply take_app_length.
    + apply List.in_seq. rewrite List.length_app.
      destruct q; [congruence|]. simpl. lia.
Qed.

Lemma fold_add_dir_old (l : list (list string))
    (tree : gmap (list string) node) (q : list string) (n : node) :
  tree !! q = Some n -> fold_left add_dir l tree !! q = Some n.
Proof.
  revert tree. induction l as [|a l IH]; intros tree H; [exact H|].
  simpl. apply IH. unfold add_dir.
  destruct (tree !! a) eqn:Ea; [exact H|].
  rewrite lookup_insert_ne; [exact H|]. intros ->. congruence.
Qed.

Lemma fold_add_dir_new (l : list (list string))
    (tree : gmap (list string) node) (q : list string) :
  tree !! q = None -> List.In q l -> fold_left add_dir l tree !! q = Some Dir.
Proof.
  revert tree. induction l as [|a l IH]; intros tree H Hin; [destruct Hin|].
  simpl. destruct (decide (a = q)) as [->|Hne].
  - apply fold_add_dir_old. unfold add_dir. rewrite H.
    apply lookup_insert_eq.
  - destruct Hin as [?|Hin]; [congruence|]. apply IH; [|exact Hin].
    unfold add_dir. destruct (tree !! a); [exact H|].
    rewrite lookup_insert_ne by exact Hne. exact H.
Qed.

Lemma fold_add_dir_other (l : list (list string))
    (tree : gmap (list string) node) (q : list string) :
  ~ List.In q l -> fold_left add_dir l tree !! q = tree !! q.
Proof.
  revert tree. induction l as [|a l IH]; intros tree Hin; [reflexivity|].
  simpl. rewrite IH by (intros H; apply Hin; right; exact H).
  unfold add_dir. destruct (tree !! a); [reflexivity|].
  apply lookup_insert_ne. intros ->. apply Hin. left. reflexivity.
Qed.

Lemma mkdirSync_unfold (p : list string) (w : World) :
  mkdirSync p w
  = if existsb (is_file (fs w)) (prefixes p)
    then (Threw "ENOTDIR", w)
    else (Returned tt, mkWorld (make_dirs p (fs w)) (console w)).
Proof. reflexivity. Qed.

Lemma removelast_path_join (p : list string) (name : string) :
  removelast (path_join p name) = p.
Proof. apply List.removelast_last. Qed.

Lemma path_join_not_prefix (p : list string) (name : string) :
  ~ List.In (path_join p name) (prefixes p).
Proof.
  rewrite in_prefixes. intros [_ [k E]].
  apply (f_equal (@List.length _)) in E. unfold path_join in E.
  rewrite !List.length_app in E. simpl in E. lia.
Qed.

Lemma path_join_neq (p : list string) (name : string) :
  path_join p name <> p.
Proof.
  intros E. apply (f_equal (@List.length _)) in E. unfold path_join in E.
  rewrite List.length_app in E. simpl in E. lia.
Qed.

Lemma path_join_inj (p : list string) (a b : string) :
  path_join p a = path_join p b -> a = b.
Proof. unfold path_join. intros E. apply app_inv_head in E. congruence. Qed.

Lemma self_in_prefixes (p : list string) :
  p <> [] -> List.In p (prefixes p).
Proof. intros H. apply in_prefixes. split; [exact H|reflexivity]. Qed.

Lemma lookup_node_path_join (tree : gmap (list string) node)
    (p : list string) (name : string) :
  lookup_node tree (path_join p name) = tree !! path_join p name.
Proof.
  unfold path_join. destruct p; reflexivity.
Qed.

Lemma main_early (workspace : list string) (w : World) :
  is_Some (fs w !! MEMORY_DIR workspace) ->
  main workspace w
  = (Returned tt,
     mkWorld (fs w)
       (console w ++
        [Banner; AlreadyInstalled; Location (MEMORY_DIR workspace)])%list).
Proof.
  intros [n Hn].
  unfold main, mbind, eff_mbind, eff_bind, mret, eff_mret, eff_ret,
    console_log, existsSync.
  cbn [fs console]. unfold MEMORY_DIR in *.
  rewrite lookup_node_path_join, Hn. cbn [fs console].
  rewrite <- !List.app_assoc. reflexivity.
Qed.

Lemma main_blocked (workspace : list string) (w : World) :
  fs w !! MEMORY_DIR workspace = None ->
  existsb (is_file (fs w)) (prefixes (MEMORY_DIR workspace)) = true ->
  main workspace w
  = (Threw "ENOTDIR", mkWorld (fs w) (console w ++ [Banner])%list).
Proof.
  intros Hn Hb.
  unfold main, mbind, eff_mbind, eff_bind, console_log, existsSync.
  cbn [fs console]. unfold MEMORY_DIR in *.
  rewrite lookup_node_path_join, Hn.
  rewrite mkdirSync_unfold. cbn [fs console]. rewrite Hb. reflexivity.
Qed.

Lemma writeFileSync_ok (p : list string) (name : string) (d : data)
    (w : World) :
  fs w !! p = Some Dir -> p <> [] ->
  fs w !! path_join p name <> Some Dir ->
  writeFileSync (path_join p name) d w
  = (Returned tt, mkWorld (<[path_join p name := File d]> (fs w)) (console w)).
Proof.
  intros Hp Hne Hf. unfold writeFileSync.
  rewrite removelast_path_join, lookup_node_path_join.
  destruct p as [|a p]; [congruence|]. cbn [lookup_node]. rewrite Hp.
  destruct (fs w !! path_join (a :: p) name) as [[|]|]; try reflexivity.
  congruence.
Qed.

Lemma MEMORY_DIR_nonempty (workspace : list string) :
  MEMORY_DIR workspace <> [].
Proof. unfold MEMORY_DIR, path_join. destruct workspace; discriminate. Qed.

(** The run that installs: the directory is missing, no file is in
    the way and none of the three targets is a directory. *)
Lemma main_installs (workspace : list string) (w : World) :
  fs w !! MEMORY_DIR workspace = None ->
  existsb (is_file (fs w)) (prefixes (MEMORY_DIR workspace)) = false ->
  fs w !! path_join (MEMORY_DIR workspace) "config.json" <> Some Dir ->
  fs w !! path_join (MEMORY_DIR workspace) "openclaw-wrapper.js" <> Some Dir ->
  fs w !! path_join (MEMORY_DIR workspace) "example.js" <> Some Dir ->
  main workspace w
  = (Returned tt,
     mkWorld
       (<[path_join (MEMORY_DIR workspace) "example.js" := File ExampleCode]>
          (<[path_join (MEMORY_DIR workspace) "openclaw-wrapper.js"
             := File WrapperCode]>
             (<[path_join (MEMORY_DIR workspace) "config.json"
                := File (ConfigJson (config workspace))]>
                (make_dirs (MEMORY_DIR workspace) (fs w)))))
       (console w ++
        [Banner; Installed;
         ConfigAt (path_join (MEMORY_DIR workspace) "config.json");
         DatabaseAt (path (config workspace));
         WrapperAt (path_join (MEMORY_DIR workspace) "openclaw-wrapper.js");
         NextSteps; Step 1; Step 2; Step 3])%list).
Proof.
  intros Hn Hb Hc Hw He.
  pose proof (MEMORY_DIR_nonempty workspace) as Hne.
  set (MD := MEMORY_DIR workspace) in *.
  assert (make_dirs MD (fs w) !! MD = Some Dir) as Hdir.
  { apply fold_add_dir_new; [exact Hn|]. apply self_in_prefixes, Hne. }
  assert (forall name, make_dirs MD (fs w) !! path_join MD name
                       = fs w !! path_join MD name) as Hfile.
  { intros name. apply fold_add_dir_other, path_join_not_prefix. }
  unfold main. fold MD.
  unfold mbind, eff_mbind, eff_bind at 1. unfold console_log at 1.
  unfold eff_bind at 1. unfold existsSync. cbn [fs console].
  unfold MD at 1. unfold MEMORY_DIR at 1.
  rewrite lookup_node_path_join. fold (MEMORY_DIR workspace). fold MD.
  rewrite Hn.
  unfold eff_bind at 1. rewrite mkdirSync_unfold. cbn [fs console].
  rewrite Hb.
  unfold eff_bind at 1.
  rewrite writeFileSync_ok; cbn [fs console];
    [|exact Hdir|exact Hne|rewrite Hfile; exact Hc].
  unfold eff_bind at 1.
  rewrite writeFileSync_ok; cbn [fs console];
    [|rewrite lookup_insert_ne by apply path_join_neq; exact Hdir
     |exact Hne
     |rewrite lookup_insert_ne by (intros E; apply path_join_inj in E;
                                   discriminate);
      rewrite Hfile; exact Hw].
  unfold eff_bind at 1.
  rewrite writeFileSync_ok; cbn [fs console];
    [|rewrite !lookup_insert_ne by apply path_join_neq; exact Hdir
     |exact Hne
     |rewrite !lookup_insert_ne by (intros E; apply path_join_inj in E;
                                    discriminate);
      rewrite Hfile; exact He].
  unfold eff_bind, console_log. cbn [fs console].
  rewrite <- !List.app_assoc. reflexivity.
Qed.

Lemma existsb_false_iff {A : Type} (f : A -> bool) (l : list A) :
  existsb f l = false <-> forall x, List.In x l -> f x = false.
Proof.
  split.
  - intros H x Hx. destruct (f x) eqn:E; [|reflexivity].
    rewrite <- H. symmetry. apply existsb_exists. exists x. auto.
  - intros H. destruct (existsb f l) eqn:E; [|reflexivity].
    apply existsb_exists in E as (x & Hx & Hf). rewrite (H x Hx) in Hf.
    discriminate.
Qed.

Lemma is_file_spec (tree : gmap (list string) node) (q : list string) :
  q <> [] -> (is_file tree q = true <-> exists d, tree !! q = Some (File d)).
Proof.
  intros Hq. unfold is_file. destruct q as [|a q]; [congruence|].
  cbn [lookup_node]. destruct (tree !! (a :: q)) as [[|d]|].
  - split; [discriminate|intros [d H]; discriminate].
  - split; [eauto|reflexivity].
  - split; [discriminate|intros [d H]; discriminate].
Qed.

Lemma no_file_in_the_way (tree : gmap (list string) node) (p : list string) :
  existsb (is_file tree) (prefixes p) = false <->
  forall q d, q <> [] -> q `prefix_of` p -> tree !! q <> Some (File d).
Proof.
  rewrite existsb_false_iff. split.
  - intros H q d Hq Hp E.
    assert (is_file tree q = true) as Hf by (apply is_file_spec; eauto).
    rewrite H in Hf; [discriminate|]. apply in_prefixes. auto.
  - intros H q Hin. apply in_prefixes in Hin as [Hq Hp].
    destruct (is_file tree q) eqn:E; [|reflexivity].
    apply is_file_spec in E as [d E]; [|exact Hq].
    destruct (H q d Hq Hp E).
Qed.

Lemma well_formed_child (tree : gmap (list string) node)
    (p : list string) (name : string) :
  well_formed tree -> p <> [] -> tree !! p = None ->
  tree !! path_join p name = None.
Proof.
  intros Hwf Hne Hp. destruct (tree !! path_join p name) as [n|] eqn:E;
    [|reflexivity].
  apply Hwf in E. rewrite removelast_path_join in E.
  destruct p; [congruence|]. cbn [lookup_node] in E. congruence.
Qed.

(** X18: a first run installs.  On a well-formed tree where the
    installation directory does not exist and no file sits on the path to
    it, [main] returns normally; afterwards the directory and every
    ancestor of it is a directory, the three files [config.json],
    [openclaw-wrapper.js] and [example.js] exist with their contents, and
    nine lines have been printed, the database line naming [memory.db]
    inside the directory. *)
Theorem main_fresh_install_creates (workspace : list string) (w : World) :
  well_formed (fs w) ->
  fs w !! MEMORY_DIR workspace = None ->
  (forall q d, q <> [] -> q `prefix_of` MEMORY_DIR workspace ->
               fs w !! q <> Some (File d)) ->
  exists w',
    main workspace w = (Returned tt, w') /\
    (forall q, q <> [] -> q `prefix_of` MEMORY_DIR workspace ->
               fs w' !! q = Some Dir) /\
    fs w' !! path_join (MEMORY_DIR workspace) "config.json"
      = Some (File (ConfigJson (config workspace))) /\
    fs w' !! path_join (MEMORY_DIR workspace) "openclaw-wrapper.js"
      = Some (File WrapperCode) /\
    fs w' !! path_join (MEMORY_DIR workspace) "example.js"
      = Some (File ExampleCode) /\
    console w'
    = (console w ++
       [Banner; Installed;
        ConfigAt (path_join (MEMORY_DIR workspace) "config.json");
        DatabaseAt (path_join (MEMORY_DIR workspace) "memory.db");
        WrapperAt (path_join (MEMORY_DIR workspace) "openclaw-wrapper.js");
        NextSteps; Step 1; Step 2; Step 3])%list.
Proof.
  intros Hwf Hn Hfree.
  pose proof (MEMORY_DIR_nonempty workspace) as Hne.
  pose proof (well_formed_child _ _ "config.json" Hwf Hne Hn) as Hc.
  pose proof (well_formed_child _ _ "openclaw-wrapper.js" Hwf Hne Hn) as Hw.
  pose proof (well_formed_child _ _ "example.js" Hwf Hne Hn) as He.
  eexists. split.
  { apply main_installs; try congruence. apply no_file_in_the_way, Hfree. }
  cbn [fs console]. split; [|split; [|split; [|split]]].
  - intros q Hq Hp.
    assert (List.In q (prefixes (MEMORY_DIR workspace))) as Hin
      by (apply in_prefixes; auto).
    rewrite !lookup_insert_ne
      by (intros <-; exact (path_join_not_prefix _ _ Hin)).
    destruct (fs w !! q) as [[|d]|] eqn:E.
    + apply fold_add_dir_old. exact E.
    + destruct (Hfree q d Hq Hp E).
    + apply fold_add_dir_new; assumption.
  - rewrite !lookup_insert_ne
      by (intros E; apply path_join_inj in E; discriminate).
    apply lookup_insert_eq.
  - rewrite lookup_insert_ne
      by (intros E; apply path_join_inj in E; discriminate).
    apply lookup_insert_eq.
  - apply lookup_insert_eq.
  - reflexivity.
Qed.

Lemma well_formed_empty : well_formed ∅.
Proof. intros p n H. rewrite lookup_empty in H. discriminate. Qed.

Lemma main_fresh_install_creates_witness :
  exists w',
    main default_workspace (mkWorld ∅ []) = (Returned tt, w') /\
    fs w' !! MEMORY_DIR default_workspace = Some Dir /\
    fs w' !! path_join (MEMORY_DIR default_workspace) "config.json"
      = Some (File (ConfigJson (config default_workspace))).
Proof.
  destruct (main_fresh_install_creates default_workspace (mkWorld ∅ []))
    as (w' & H & Hd & Hc & _).
  - exact well_formed_empty.
  - apply lookup_empty.
  - intros q d _ _ H. cbn [fs] in H. rewrite lookup_empty in H. discriminate.
  - exists w'. split; [exact H|]. split; [|exact Hc].
    apply Hd; [discriminate|reflexivity].
Defined.


(** X19: [main] only ever adds.  On a well-formed tree every entry that
    existed before the run is still there with the same node, whatever
    the outcome; a path that was free is afterwards still free, or a new
    directory on the way to the installation directory, or a new file
    directly inside it. *)
Theorem main_frame (workspace : list string) (w : World) (q : list string) :
  well_formed (fs w) ->
  match fs w !! q with
  | Some n => fs (snd (main workspace w)) !! q = Some n
  | None =>
      fs (snd (main workspace w)) !! q = None \/
      (fs (snd (main workspace w)) !! q = Some Dir /\
       q <> [] /\ q `prefix_of` MEMORY_DIR workspace) \/
      (exists name d,
         q = path_join (MEMORY_DIR workspace) name /\
         fs (snd (main workspace w)) !! q = Some (File d))
  end.
Proof.
  intros Hwf.
  pose proof (MEMORY_DIR_nonempty workspace) as Hne.
  destruct (fs w !! MEMORY_DIR workspace) as [m|] eqn:Hn.
  { rewrite main_early by eauto. cbn [snd fs].
    destruct (fs w !! q); auto. }
  destruct (existsb (is_file (fs w)) (prefixes (MEMORY_DIR workspace)))
    eqn:Hb.
  { rewrite main_blocked by assumption. cbn [snd fs].
    destruct (fs w !! q); auto. }
  pose proof (well_formed_child _ _ "config.json" Hwf Hne Hn) as Hc.
  pose proof (well_formed_child _ _ "openclaw-wrapper.js" Hwf Hne Hn) as Hw.
  pose proof (well_formed_child _ _ "example.js" Hwf Hne Hn) as He.
  rewrite main_installs by congruence. cbn [snd fs].
  destruct (fs w !! q) as [n|] eqn:Eq.
  - rewrite !lookup_insert_ne by congruence.
    apply fold_add_dir_old. exact Eq.
  - destruct (decide (path_join (MEMORY_DIR workspace) "example.js" = q))
      as [<-|N1].
    { right; right. eexists _, _. split; [reflexivity|].
      apply lookup_insert_eq. }
    rewrite lookup_insert_ne by exact N1.
    destruct (decide (path_join (MEMORY_DIR workspace) "openclaw-wrapper.js"
                      = q)) as [<-|N2].
    { right; right. eexists _, _. split; [reflexivity|].
      apply lookup_insert_eq. }
    rewrite lookup_insert_ne by exact N2.
    destruct (decide (path_join (MEMORY_DIR workspace) "config.json" = q))
      as [<-|N3].
    { right; right. eexists _, _. split; [reflexivity|].
      apply lookup_insert_eq. }
    rewrite lookup_insert_ne by exact N3.
    destruct (decide (q ∈ prefixes (MEMORY_DIR workspace))) as [Hin|Hin];
      rewrite list_elem_of_In in Hin.
    + right; left. split; [apply fold_add_dir_new; assumption|].
      apply in_prefixes. exact Hin.
    + left. unfold make_dirs. rewrite fold_add_dir_other by exact Hin.
      exact Eq.
Qed.

Lemma main_frame_witness :
  fs (snd (main default_workspace
             (mkWorld {[ ["Users"] := Dir ]} []))) !! ["Users"]
  = Some Dir.
Proof.
  refine (main_frame default_workspace
            (mkWorld {[ ["Users"] := Dir ]} []) ["Users"] _).
  intros p n H. cbn [fs] in H.
  apply lookup_singleton_Some in H as [<- <-]. reflexivity.
Defined.


(** X20: when the installation directory is missing and a file sits on
    the path to it, [main] throws ENOTDIR from [mkdirSync] after printing
    the banner, and the file tree is untouched. *)
Theorem main_blocked_by_file (workspace : list string) (w : World)
    (q : list string) (d : data) :
  fs w !! MEMORY_DIR workspace = None ->
  q <> [] -> q `prefix_of` MEMORY_DIR workspace ->
  fs w !! q = Some (File d) ->
  main workspace w
  = (Threw "ENOTDIR", mkWorld (fs w) (console w ++ [Banner])%list).
Proof.
  intros Hn Hq Hp Hf. apply main_blocked; [exact Hn|].
  destruct (existsb (is_file (fs w)) (prefixes (MEMORY_DIR workspace)))
    eqn:E; [reflexivity|].
  rewrite no_file_in_the_way in E. destruct (E q d Hq Hp Hf).
Qed.

Lemma main_blocked_by_file_witness :
  main default_workspace
    (mkWorld {[ ["Users"] := File ExampleCode ]} [])
  = (Threw "ENOTDIR",
     mkWorld {[ ["Users"] := File ExampleCode ]} [Banner]).
Proof.
  refine (main_blocked_by_file default_workspace
            (mkWorld {[ ["Users"] := File ExampleCode ]} [])
            ["Users"] ExampleCode _ _ _ _).
  - vm_compute. reflexivity.
  - discriminate.
  - eexists. reflexivity.
  - vm_compute. reflexivity.
Defined.


Lemma bind_invariant {S A B : Type} (P : S -> Prop)
    (m : Eff S A) (k : A -> Eff S B) (s : S) :
  P (snd (m s)) -> (forall a s', P s' -> P (snd (k a s'))) ->
  P (snd (eff_bind k m s)).
Proof.
  intros Hm Hk. unfold eff_bind. destruct (m s) as [[a|e] s']; simpl in *.
  - apply Hk. exact Hm.
  - exact Hm.
Qed.

Lemma writeFileSync_keeps (p q : list string) (d : data) (w : World) :
  p <> q -> is_Some (fs w !! q) ->
  is_Some (fs (snd (writeFileSync p d w)) !! q).
Proof.
  intros Hne H. unfold writeFileSync.
  destruct (lookup_node (fs w) (removelast p)) as [[|]|]; try exact H.
  destruct (lookup_node (fs w) p) as [[|]|]; try exact H;
    cbn [snd fs]; rewrite lookup_insert_ne by exact Hne; exact H.
Qed.

Lemma main_after_mkdir (workspace : list string) (w : World) :
  fs w !! MEMORY_DIR workspace = None ->
  existsb (is_file (fs w)) (prefixes (MEMORY_DIR workspace)) = false ->
  main workspace w
  = (writeFileSync (path_join (MEMORY_DIR workspace) "config.json")
       (ConfigJson (config workspace));;
     writeFileSync (path_join (MEMORY_DIR workspace) "openclaw-wrapper.js")
       WrapperCode;;
     writeFileSync (path_join (MEMORY_DIR workspace) "example.js") ExampleCode;;
     console_log Installed;;
     console_log (ConfigAt (path_join (MEMORY_DIR workspace) "config.json"));;
     console_log (DatabaseAt (path (config workspace)));;
     console_log
       (WrapperAt (path_join (MEMORY_DIR workspace) "openclaw-wrapper.js"));;
     console_log NextSteps;;
     console_log (Step 1);;
     console_log (Step 2);;
     console_log (Step 3))
      (mkWorld (make_dirs (MEMORY_DIR workspace) (fs w))
         (console w ++ [Banner])%list).
Proof.
  intros Hn Hb.
  unfold main.
  unfold mbind at 1. unfold eff_mbind at 1. unfold eff_bind at 1.
  unfold console_log at 1.
  unfold mbind at 1. unfold eff_mbind at 1. unfold eff_bind at 1.
  unfold existsSync. cbn [fs console].
  unfold MEMORY_DIR at 1.
  rewrite lookup_node_path_join. fold (MEMORY_DIR workspace).
  rewrite Hn.
  unfold mbind at 1. unfold eff_mbind at 1. unfold eff_bind at 1.
  rewrite mkdirSync_unfold. cbn [fs console].
  rewrite Hb. reflexivity.
Qed.

(** Once [mkdirSync] has succeeded the directory stays. *)
Lemma main_leaves_directory (workspace : list string) (w : World) :
  fs w !! MEMORY_DIR workspace = None ->
  existsb (is_file (fs w)) (prefixes (MEMORY_DIR workspace)) = false ->
  is_Some (fs (snd (main workspace w)) !! MEMORY_DIR workspace).
Proof.
  intros Hn Hb.
  pose proof (MEMORY_DIR_nonempty workspace) as Hne.
  rewrite main_after_mkdir by assumption.
  assert (is_Some (make_dirs (MEMORY_DIR workspace) (fs w)
                   !! MEMORY_DIR workspace)) as Hdir.
  { exists Dir. apply fold_add_dir_new; [exact Hn|].
    apply self_in_prefixes, Hne. }
  unfold mbind, eff_mbind.
  repeat (apply (bind_invariant
                   (fun s => is_Some (fs s !! MEMORY_DIR workspace)));
          [|intros _ ? ?]);
    try (apply writeFileSync_keeps; [apply path_join_neq|]);
    try assumption;
    unfold console_log; cbn [snd fs]; assumption.
Qed.

(** X21: running the installer twice leaves the same file tree as
    running it once, on every tree and whatever the first run did. *)
Theorem main_twice (workspace : list string) (w : World) :
  fs (snd (main workspace (snd (main workspace w))))
  = fs (snd (main workspace w)).
Proof.
  destruct (fs w !! MEMORY_DIR workspace) as [m|] eqn:Hn.
  { rewrite (main_early workspace w) by eauto. cbn [snd].
    rewrite main_early by (cbn [fs]; eauto). reflexivity. }
  destruct (existsb (is_file (fs w)) (prefixes (MEMORY_DIR workspace)))
    eqn:Hb.
  { rewrite (main_blocked workspace w) by assumption. cbn [snd].
    rewrite main_blocked by assumption. reflexivity. }
  rewrite (main_early workspace (snd (main workspace w)))
    by (apply main_leaves_directory; assumption).
  reflexivity.
Qed.

Lemma lookup_node_insert_ne (tree : gmap (list string) node)
    (k q : list string) (v : node) :
  k <> q -> lookup_node (<[k := v]> tree) q = lookup_node tree q.
Proof.
  intros H. destruct q; [reflexivity|]. cbn [lookup_node].
  apply lookup_insert_ne. exact H.
Qed.

Lemma lookup_node_make_dirs_old (p : list string)
    (tree : gmap (list string) node) (q : list string) (n : node) :
  lookup_node tree q = Some n -> lookup_node (make_dirs p tree) q = Some n.
Proof.
  destruct q; [intros H; exact H|]. cbn [lookup_node].
  apply fold_add_dir_old.
Qed.

Lemma removelast_prefix (r p : list string) :
  r <> [] -> r `prefix_of` p -> removelast r `prefix_of` p.
Proof.
  intros Hr [k ->]. exists ([List.last r ""] ++ k)%list.
  rewrite List.app_assoc, <- List.app_removelast_last by exact Hr.
  reflexivity.
Qed.

Lemma make_dirs_well_formed (p : list string)
    (tree : gmap (list string) node) :
  well_formed tree ->
  existsb (is_file tree) (prefixes p) = false ->
  well_formed (make_dirs p tree).
Proof.
  intros Hwf Hb r n Hr.
  destruct (tree !! r) as [m|] eqn:Er.
  { apply lookup_node_make_dirs_old. exact (Hwf r m Er). }
  destruct (decide (r ∈ prefixes p)) as [Hin|Hin];
    rewrite list_elem_of_In in Hin.
  2:{ unfold make_dirs in Hr. rewrite fold_add_dir_other in Hr by exact Hin.
      congruence. }
  apply in_prefixes in Hin as [Hne Hp].
  pose proof (removelast_prefix r p Hne Hp) as Hp'.
  destruct (removelast r) as [|a q] eqn:Eq; [reflexivity|].
  cbn [lookup_node].
  assert (List.In (a :: q) (prefixes p)) as Hin'
    by (apply in_prefixes; split; [discriminate|exact Hp']).
  destruct (tree !! (a :: q)) as [[|d]|] eqn:E.
  - apply fold_add_dir_old. exact E.
  - rewrite no_file_in_the_way in Hb.
    destruct (Hb (a :: q) d); [discriminate|exact Hp'|exact E].
  - apply fold_add_dir_new; assumption.
Qed.

Lemma insert_file_well_formed (tree : gmap (list string) node)
    (p : list string) (name : string) (d : data) :
  well_formed tree ->
  lookup_node tree p = Some Dir ->
  tree !! path_join p name = None ->
  well_formed (<[path_join p name := File d]> tree).
Proof.
  intros Hwf Hp Hf r n Hr.
  destruct (decide (path_join p name = r)) as [<-|Hne].
  - rewrite removelast_path_join, lookup_node_insert_ne
      by apply path_join_neq. exact Hp.
  - rewrite lookup_insert_ne in Hr by exact Hne.
    rewrite lookup_node_insert_ne; [exact (Hwf r n Hr)|].
    intros E. pose proof (Hwf r n Hr) as H. rewrite <- E in H.
    rewrite lookup_node_path_join in H. congruence.
Qed.

(** X22: [main] keeps the file tree well formed: after the run the
    parent of every entry is still a directory. *)
Theorem main_preserves_well_formed (workspace : list string) (w : World) :
  well_formed (fs w) -> well_formed (fs (snd (main workspace w))).
Proof.
  intros Hwf.
  pose proof (MEMORY_DIR_nonempty workspace) as Hne.
  destruct (fs w !! MEMORY_DIR workspace) as [m|] eqn:Hn.
  { rewrite main_early by eauto. exact Hwf. }
  destruct (existsb (is_file (fs w)) (prefixes (MEMORY_DIR workspace)))
    eqn:Hb.
  { rewrite main_blocked by assumption. exact Hwf. }
  pose proof (well_formed_child _ _ "config.json" Hwf Hne Hn) as Hc.
  pose proof (well_formed_child _ _ "openclaw-wrapper.js" Hwf Hne Hn) as Hw.
  pose proof (well_formed_child _ _ "example.js" Hwf Hne Hn) as He.
  rewrite main_installs by congruence. cbn [snd fs].
  assert (lookup_node (make_dirs (MEMORY_DIR workspace) (fs w))
            (MEMORY_DIR workspace) = Some Dir) as Hdir.
  { destruct (MEMORY_DIR workspace) as [|a q] eqn:E; [congruence|].
    cbn [lookup_node]. apply fold_add_dir_new; [exact Hn|].
    rewrite <- E. apply self_in_prefixes. congruence. }
  assert (forall name, make_dirs (MEMORY_DIR workspace) (fs w)
                         !! path_join (MEMORY_DIR workspace) name
                       = fs w !! path_join (MEMORY_DIR workspace) name)
    as Hfile by (intros name; apply fold_add_dir_other, path_join_not_prefix).
  repeat apply insert_file_well_formed.
  - apply make_dirs_well_formed; assumption.
  - exact Hdir.
  - rewrite Hfile. exact Hc.
  - rewrite lookup_node_insert_ne by apply path_join_neq. exact Hdir.
  - rewrite lookup_insert_ne
      by (intros E; apply path_join_inj in E; discriminate).
    rewrite Hfile. exact Hw.
  - rewrite !lookup_node_insert_ne by apply path_join_neq. exact Hdir.
  - rewrite !lookup_insert_ne
      by (intros E; apply path_join_inj in E; discriminate).
    rewrite Hfile. exact He.
Qed.

Lemma main_preserves_well_formed_witness :
  well_formed (fs (snd (main default_workspace (mkWorld ∅ [])))).
Proof.
  apply main_preserves_well_formed. intros p n H. cbn [fs] in H.
  rewrite lookup_empty in H. discriminate.
Defined.

